(** * Custom gluon layers: [CenteredLayer], [MyDense], parameters and the
    training driver of [chapter03_deep-neural-networks/custom-layer.ipynb].

    The notebook is a thin layer over an external tensor library.  Tensors
    are stored the way the library stores them: a context, a shape and the
    row-major list of elements.  Scalars are exact rationals ([Qc]) where
    only the structure of a computation matters; the centering layer, whose
    result depends on rounding, is modelled over binary32 as well. *)

From stdpp Require Import base numbers list strings gmap.
From Stdlib Require Import QArith Qcanon Qcabs.
From Stdlib Require Floats.SpecFloat.

Set Warnings "-register-all".

Open Scope list_scope.
Open Scope nat_scope.

(** ** Errors and the error monad *)

Inductive error : Set :=
  | ShapeUndefinedError
  | ShapeMismatchError
  | UninitializedError
  | GradientNotTrackedError
  | KeyNotFoundError
  | NameCollisionError.

Inductive result (A : Type) : Type :=
  | Ok (a : A)
  | Err (e : error).
Arguments Ok {A} a.
Arguments Err {A} e.

#[global] Instance result_ret : MRet result := fun A a => Ok a.
#[global] Instance result_bind : MBind result := fun A B f m =>
  match m with
  | Ok a => f a
  | Err e => Err e
  end.

(** ** Scalars *)

Definition Qc_sum (l : list Qc) : Qc := foldr Qcplus 0%Qc l.

Definition Qc_of_nat (n : nat) : Qc := Qc_of_Z (Z.of_nat n).

Definition Qc_max (a b : Qc) : Qc := if decide (a <= b)%Qc then b else a.

(** [tabulate2 n m f] is the row-major [n] by [m] table of [f]. *)
Definition tabulate2 {A} (n m : nat) (f : nat -> nat -> A) : list A :=
  flat_map (fun r => map (f r) (seq 0 m)) (seq 0 n).

(** Number of elements of a shape. *)
Definition size (s : list nat) : nat := foldr Nat.mul 1 s.

(** ** The tensor library ([mxnet.nd]) *)

Inductive Context : Set :=
  | cpu (device_id : nat)
  | gpu (device_id : nat).

#[global] Instance Context_eq_dec : EqDecision Context.
Proof. solve_decision. Defined.

#[global] Instance Context_countable : Countable Context.
Proof.
  refine (inj_countable'
    (fun c => match c with cpu i => inl i | gpu i => inr i end)
    (fun s => match s with inl i => cpu i | inr i => gpu i end) _).
  intros []; reflexivity.
Defined.

Module nd.

Record NDArray : Type := mkNDArray {
  context : Context;
  shape : list nat;
  data : list Qc
}.

(** An array owns one element per index and every dimension is positive. *)
Definition well_formed (x : NDArray) : Prop :=
  shape x <> [] /\ Forall (fun d => 0 < d) (shape x) /\
  length (data x) = size (shape x).

Definition full (c : Context) (s : list nat) (v : Qc) : NDArray :=
  mkNDArray c s (replicate (size s) v).

Definition ones (c : Context) (s : list nat) : NDArray := full c s 1%Qc.
Definition zeros (c : Context) (s : list nat) : NDArray := full c s 0%Qc.

(** [nd.array(values)]: a one-dimensional array on the default context. *)
Definition array (values : list Qc) : NDArray :=
  mkNDArray (cpu 0) [length values] values.

(** [x.as_in_context(c)] *)
Definition as_in_context (x : NDArray) (c : Context) : NDArray :=
  mkNDArray c (shape x) (data x).

(** [nd.mean(x)]: the mean over all elements, a one-element array. *)
Definition mean (x : NDArray) : NDArray :=
  mkNDArray (context x) [1]
    [(Qc_sum (data x) / Qc_of_nat (length (data x)))%Qc].

(** [x.asscalar()]: the element of a one-element array. *)
Definition asscalar (x : NDArray) : result Qc :=
  match data x with
  | [v] => Ok v
  | _ => Err ShapeMismatchError
  end.

(** Broadcasting arithmetic [a op b].  Both call sites of the notebook have a
    one-dimensional right operand ([nd.mean(x)] of shape (1,), the bias of
    shape (units,)); its single axis is aligned with the last axis of [a].
    Equal shapes combine element by element. *)
Definition broadcast (f : Qc -> Qc -> Qc) (a b : NDArray) : result NDArray :=
  if decide (shape a = shape b) then
    Ok (mkNDArray (context a) (shape a) (zip_with f (data a) (data b)))
  else
    match last (shape a), shape b with
    | Some k, [m] =>
        if decide (m = 1 \/ k = m) then
          Ok (mkNDArray (context a) (shape a)
                (imap (fun i v => f v (nth (i mod m) (data b) 0%Qc)) (data a)))
        else if decide (k = 1) then
          Ok (mkNDArray (context a) (removelast (shape a) ++ [m])
                (flat_map (fun v => map (f v) (data b)) (data a)))
        else Err ShapeMismatchError
    | _, _ => Err ShapeMismatchError
    end.

Definition dotp (u v : list Qc) : Qc := Qc_sum (zip_with Qcmult u v).

(** [nd.dot(a, b)]: sum product over the last axis of [a] and the first axis
    of [b]. *)
Definition dot (a b : NDArray) : result NDArray :=
  match last (shape a), shape b with
  | Some k, k' :: rest =>
      if decide (k = k') then
        let m := size rest in
        let n := size (removelast (shape a)) in
        Ok (mkNDArray (context a) (removelast (shape a) ++ rest)
              (tabulate2 n m (fun r j =>
                 dotp (take k (drop (r * k) (data a)))
                      (map (fun i => nth (i * m + j) (data b) 0%Qc)
                           (seq 0 k)))))
      else Err ShapeMismatchError
  | _, _ => Err ShapeMismatchError
  end.

(** [nd.maximum(x, c)] with a scalar right operand. *)
Definition maximum (x : NDArray) (c : Qc) : NDArray :=
  mkNDArray (context x) (shape x) (map (fun v => Qc_max v c) (data x)).

(** [x.reshape((-1, k))]: the leading dimension is inferred. *)
Definition reshape_rows (x : NDArray) (k : nat) : result NDArray :=
  if decide (0 < k /\ length (data x) mod k = 0) then
    Ok (mkNDArray (context x) [length (data x) / k; k] (data x))
  else Err ShapeMismatchError.

End nd.

Abbreviation NDArray := nd.NDArray.

(** ** [CenteredLayer] *)

Module CenteredLayer.

(** [def forward(self, x): return x - nd.mean(x)] *)
Definition forward (x : NDArray) : result NDArray :=
  nd.broadcast Qcminus x (nd.mean x).

End CenteredLayer.

(** The words of the specification about centering: the mean over all
    elements. *)
Definition mean_of (x : NDArray) : Qc :=
  (Qc_sum (nd.data x) / Qc_of_nat (length (nd.data x)))%Qc.

(** ** [CenteredLayer] over binary32

    The arrays of the notebook hold 32-bit floats.  The centering layer is
    modelled a second time with the IEEE 754 binary32 operations (round to
    nearest even), the sum of [nd.mean] being accumulated in binary32 from
    the first element to the last. *)

Module f32.

Definition prec : Z := 24.
Definition emax : Z := 128.

Definition add := SpecFloat.SFadd prec emax.
Definition sub := SpecFloat.SFsub prec emax.
Definition mul := SpecFloat.SFmul prec emax.
Definition div := SpecFloat.SFdiv prec emax.

Definition zero : SpecFloat.spec_float := SpecFloat.S754_zero false.

(** The float nearest to an integer, and to a natural number. *)
Definition of_Z (z : Z) : SpecFloat.spec_float :=
  SpecFloat.binary_normalize prec emax z 0 false.

Definition of_nat (n : nat) : SpecFloat.spec_float := of_Z (Z.of_nat n).


Record NDArray : Type := mkNDArray {
  context : Context;
  shape : list nat;
  data : list SpecFloat.spec_float
}.

Definition well_formed (x : NDArray) : Prop :=
  shape x <> [] /\ Forall (fun d => 0 < d) (shape x) /\
  length (data x) = size (shape x).

Definition full (c : Context) (s : list nat) (v : SpecFloat.spec_float) :
    NDArray :=
  mkNDArray c s (replicate (size s) v).

Definition sum (l : list SpecFloat.spec_float) : SpecFloat.spec_float :=
  foldl add zero l.

(** The mean over all elements, as a scalar and as [nd.mean(x)]. *)
Definition mean_of (x : NDArray) : SpecFloat.spec_float :=
  div (sum (data x)) (of_nat (length (data x))).

Definition mean (x : NDArray) : NDArray :=
  mkNDArray (context x) [1] [mean_of x].

(** Broadcasting arithmetic, as [nd.broadcast]. *)
Definition broadcast
    (f : SpecFloat.spec_float -> SpecFloat.spec_float -> SpecFloat.spec_float)
    (a b : NDArray) : result NDArray :=
  if decide (shape a = shape b) then
    Ok (mkNDArray (context a) (shape a) (zip_with f (data a) (data b)))
  else
    match last (shape a), shape b with
    | Some k, [m] =>
        if decide (m = 1 \/ k = m) then
          Ok (mkNDArray (context a) (shape a)
                (imap (fun i v => f v (nth (i mod m) (data b) zero))
                      (data a)))
        else if decide (k = 1) then
          Ok (mkNDArray (context a) (removelast (shape a) ++ [m])
                (flat_map (fun v => map (f v) (data b)) (data a)))
        else Err ShapeMismatchError
    | _, _ => Err ShapeMismatchError
    end.

(** [def forward(self, x): return x - nd.mean(x)] *)
Definition forward (x : NDArray) : result NDArray :=
  broadcast sub x (mean x).




End f32.

(** ** [relu] *)

(** [def relu(X): return nd.maximum(X, 0)] *)
Definition relu (X : NDArray) : NDArray := nd.maximum X 0%Qc.

(** The rectifier in the words of the specification. *)
Definition activation (v : Qc) : Qc := if decide (0 < v)%Qc then v else 0%Qc.

(** The affine map of the specification, at row [r] and output unit [j]. *)
Definition affine (x w b : NDArray) (in_units units r j : nat) : Qc :=
  (Qc_sum (map (fun i => nth (r * in_units + i) (nd.data x) 0 *
                         nth (i * units + j) (nd.data w) 0)
               (seq 0 in_units))
   + nth j (nd.data b) 0)%Qc.

(** ** [gluon.Parameter] *)

(** An initializer maps a shape and a context to the value at each flat
    index of the tensor to fill. *)
Definition Initializer : Type := list nat -> Context -> nat -> Qc.

Module Param.

(** Modelled from the spec: the class [gluon.Parameter] (the named tensor
    handle) is not part of the notebook.  A handle has a name, an optional
    shape, a gradient-tracking flag, and storage and gradient per context. *)
Record t : Type := mk {
  name : string;
  shape : option (list nat);
  grad_req : bool;
  init : option Initializer;
  _data : gmap Context NDArray;
  _grad : gmap Context NDArray
}.

(** Modelled from the spec: Construct, a handle with no allocated storage. *)
Definition construct (name : string) (shape : option (list nat))
    (grad_req : bool) (init : option Initializer) : t :=
  mk name shape grad_req init ∅ ∅.

(** Modelled from the spec: a shape is known when it is given and all its
    dimensions are positive (a dimension 0 stands for one still to infer). *)
Definition shape_known (s : option (list nat)) : option (list nat) :=
  match s with
  | Some (d :: ds) => if forallb (Nat.ltb 0) (d :: ds) then s else None
  | _ => None
  end.

(** Modelled from the spec: a tensor of shape [s] allocated on [c] and filled
    by the initializer. *)
Definition fill (f : Initializer) (s : list nat) (c : Context) : NDArray :=
  nd.mkNDArray c s (map (f s c) (seq 0 (size s))).

(** Modelled from the spec: Initialize for one context.  Storage that exists
    is kept unless forced; otherwise a tensor of the handle's shape is
    allocated and filled, with a zero gradient when gradients are tracked. *)
Definition initialize_ctx (f : Initializer) (force : bool) (p : t)
    (c : Context) : result t :=
  match _data p !! c, force with
  | Some _, false => Ok p
  | _, _ =>
      match shape_known (shape p) with
      | Some s =>
          Ok (mk (name p) (shape p) (grad_req p) (init p)
                (<[c := fill f s c]> (_data p))
                (if grad_req p then <[c := nd.zeros c s]> (_grad p)
                 else _grad p))
      | None => Err ShapeUndefinedError
      end
  end.

(** Modelled from the spec: Initialize(initializer-function, contexts). *)
Fixpoint initialize (f : Initializer) (ctxs : list Context) (force : bool)
    (p : t) : result t :=
  match ctxs with
  | [] => Ok p
  | c :: cs => p' ← initialize_ctx f force p c; initialize f cs force p'
  end.

(** Modelled from the spec: Data(context). *)
Definition data (p : t) (c : Context) : result NDArray :=
  match _data p !! c with
  | Some a => Ok a
  | None => Err UninitializedError
  end.

(** Modelled from the spec: Gradient(context). *)
Definition grad (p : t) (c : Context) : result NDArray :=
  if grad_req p then
    match _grad p !! c with
    | Some a => Ok a
    | None => Err UninitializedError
    end
  else Err GradientNotTrackedError.

End Param.

(** ** The store of handles

    Handles are objects shared between a registry and the attributes of the
    block that owns it; they live in a store and are referred to by their
    location. *)

Abbreviation loc := nat.
Abbreviation store := (list Param.t).

Definition M (A : Type) : Type := store -> result A * store.

#[global] Instance M_ret : MRet M := fun A a st => (Ok a, st).
#[global] Instance M_bind : MBind M := fun A B f m st =>
  match m st with
  | (Ok a, st') => f a st'
  | (Err e, st') => (Err e, st')
  end.

Definition fail {A} (e : error) : M A := fun st => (Err e, st).

Definition alloc (p : Param.t) : M loc :=
  fun st => (Ok (length st), st ++ [p]).

Definition read (l : loc) : M Param.t := fun st =>
  match st !! l with
  | Some p => (Ok p, st)
  | None => (Err KeyNotFoundError, st)
  end.

Definition write (l : loc) (p : Param.t) : M unit :=
  fun st => (Ok tt, <[l := p]> st).

Definition lift {A} (r : result A) : M A := fun st => (r, st).

(** [p.data(ctx)] for the handle at [l]. *)
Definition data_at (st : store) (l : loc) (c : Context) : result NDArray :=
  match st !! l with
  | Some p => Param.data p c
  | None => Err KeyNotFoundError
  end.

(** [p.initialize(init, ctx)] for the handle at [l]. *)
Definition initialize_at (f : Initializer) (ctxs : list Context)
    (force : bool) (l : loc) : M unit :=
  p ← read l; p' ← lift (Param.initialize f ctxs force p); write l p'.

(** The invariant of the specification on a handle: storage exists for a
    context only with the declared shape, one element per index. *)
Definition storage_ok (p : Param.t) : Prop :=
  forall c a, Param._data p !! c = Some a ->
    Param.shape p = Some (nd.shape a) /\ nd.well_formed a /\ nd.context a = c.

(** Successive successful calls [p.initialize(init, ctx=ctxs)] on one
    handle, each with its initializer, contexts and force flag. *)
Fixpoint initialize_calls (calls : list (Initializer * list Context * bool))
    (p : Param.t) : result Param.t :=
  match calls with
  | [] => Ok p
  | (f, ctxs, force) :: rest =>
      p' ← Param.initialize f ctxs force p; initialize_calls rest p'
  end.

(** Context [c] was among the contexts of one of the calls. *)
Definition initialized_for (c : Context)
    (calls : list (Initializer * list Context * bool)) : Prop :=
  Exists (fun call => c ∈ call.1.2) calls.

(** ** [gluon.ParameterDict] *)

Module ParameterDict.

(** Modelled from the spec: the class [gluon.ParameterDict] (the parameter
    registry) is not part of the notebook.  A registry has a prefix and maps
    local names to handles, in insertion order. *)
Record t : Type := mk {
  prefix : string;
  _params : list (string * loc)
}.

(** Modelled from the spec: Construct(prefix), an empty registry. *)
Definition new (prefix : string) : t := mk prefix [].

Fixpoint lookup (key : string) (entries : list (string * loc)) : option loc :=
  match entries with
  | [] => None
  | (k, l) :: rest => if decide (k = key) then Some l else lookup key rest
  end.

(** Modelled from the spec: the shape, if both specified, must match. *)
Definition compatible (stored requested : option (list nat)) : bool :=
  match stored, requested with
  | Some s, Some s' => bool_decide (s = s')
  | _, _ => true
  end.

(** Modelled from the spec: Get(local_name, shape, initializer,
    gradient-tracking).  An existing handle is returned when the shapes are
    compatible; otherwise a handle named prefix + local_name is created and
    registered. *)
Definition get (self : t) (local_name : string) (shape : option (list nat))
    (init : option Initializer) (grad_req : bool) : M (loc * t) :=
  match lookup local_name (_params self) with
  | Some l =>
      p ← read l;
      if compatible (Param.shape p) shape then mret (l, self)
      else fail ShapeMismatchError
  | None =>
      l ← alloc (Param.construct (prefix self +:+ local_name) shape
                   grad_req init);
      mret (l, mk (prefix self) (_params self ++ [(local_name, l)]))
  end.

(** Modelled from the spec: the entries under their fully-qualified names,
    in insertion order. *)
Definition items (self : t) : list (string * loc) :=
  map (fun e => (prefix self +:+ e.1, e.2)) (_params self).

(** Modelled from the spec: Keys(). *)
Definition keys (self : t) : list string := map fst (items self).

(** Modelled from the spec: lookup by fully-qualified name. *)
Definition getitem (self : t) (key : string) : result loc :=
  match lookup key (items self) with
  | Some l => Ok l
  | None => Err KeyNotFoundError
  end.

(** Modelled from the spec: Merge.  The entries of [other] are added to
    [acc] one by one; a fully-qualified name that is already defined is a
    collision. *)
Fixpoint merge (acc other : list (string * loc)) :
    result (list (string * loc)) :=
  match other with
  | [] => Ok acc
  | (k, l) :: rest =>
      match lookup k acc with
      | Some _ => Err NameCollisionError
      | None => merge (acc ++ [(k, l)]) rest
      end
  end.

(** Modelled from the spec: InitializeAll, Initialize on every handle of an
    aggregated registry. *)
Fixpoint initialize (entries : list (string * loc)) (f : Initializer)
    (ctxs : list Context) (force : bool) : M unit :=
  match entries with
  | [] => mret tt
  | (_, l) :: rest =>
      _ ← initialize_at f ctxs force l; initialize rest f ctxs force
  end.

End ParameterDict.

(** The invariant of the specification on a registry: local names are
    unique, and the name of every handle is the prefix followed by its local
    name. *)
Definition registry_inv (self : ParameterDict.t) (st : store) : Prop :=
  NoDup (map fst (ParameterDict._params self)) /\
  forall n l, (n, l) ∈ ParameterDict._params self ->
    exists p, st !! l = Some p /\
              Param.name p = ParameterDict.prefix self +:+ n.

(** The states a registry and the store can reach: the registry is created
    empty, handles are requested from it, and meanwhile other registries
    request handles and handles are initialized. *)
Inductive reachable : ParameterDict.t -> store -> Prop :=
  | reach_new prefix st :
      reachable (ParameterDict.new prefix) st
  | reach_get self st local_name shape init grad_req l self' st' :
      reachable self st ->
      ParameterDict.get self local_name shape init grad_req st
        = (Ok (l, self'), st') ->
      reachable self' st'
  | reach_get_other self st other local_name shape init grad_req r st' :
      reachable self st ->
      ParameterDict.get other local_name shape init grad_req st = (r, st') ->
      reachable self st'
  | reach_initialize self st f ctxs force l r st' :
      reachable self st ->
      initialize_at f ctxs force l st = (r, st') ->
      reachable self st'.

(** Operations on the store keep the handles that exist, with their names. *)
Definition names_kept (st st' : store) : Prop :=
  forall l p, st !! l = Some p ->
    exists p', st' !! l = Some p' /\ Param.name p' = Param.name p.

(** Every handle of the store satisfies the storage invariant. *)
Definition store_ok (st : store) : Prop :=
  forall l p, st !! l = Some p -> storage_ok p.

(** The handle at [l] is declared with shape [s], satisfies the storage
    invariant and has storage for context [c]. *)
Definition ready (st : store) (l : loc) (c : Context) (s : list nat) : Prop :=
  exists p, st !! l = Some p /\ Param.shape p = Some s /\ storage_ok p /\
            is_Some (Param._data p !! c).

(** From [st] to [st'] every handle keeps its place, name and shape, and the
    storage it has. *)
Definition grows (st st' : store) : Prop :=
  forall l p, st !! l = Some p ->
    exists p', st' !! l = Some p' /\ Param.shape p' = Param.shape p /\
      Param.name p' = Param.name p /\
      forall c, is_Some (Param._data p !! c) -> is_Some (Param._data p' !! c).

(** The ways the store changes over time: some registry is asked for a
    handle, or a handle is initialized (whether the call succeeds or not). *)
Inductive evolves : store -> store -> Prop :=
  | evolves_refl st : evolves st st
  | evolves_get st self local_name shape init grad_req r st' st'' :
      ParameterDict.get self local_name shape init grad_req st = (r, st') ->
      evolves st' st'' -> evolves st st''
  | evolves_initialize st f ctxs force l r st' st'' :
      initialize_at f ctxs force l st = (r, st') ->
      evolves st' st'' -> evolves st st''.

(** The handle at [l] is declared with shape [s] and owns no storage. *)
Definition unallocated (st : store) (l : loc) (s : list nat) : Prop :=
  exists p, st !! l = Some p /\ Param.shape p = Some s /\ Param._data p = ∅.

(** ** [MyDense] *)

Module MyDense.

Record t : Type := mk {
  params : ParameterDict.t;
  units : nat;
  _in_units : nat;
  weight : loc;
  bias : loc
}.

(** [def __init__(self, units, in_units=0, **kwargs)].  The prefix given to
    the block by its name scope is an argument; [Xavier] stands for
    [mx.init.Xavier]. *)
Definition __init__ (Xavier : Qc -> Initializer) (prefix : string)
    (units in_units : nat) : M t :=
  '(weight, params) ← ParameterDict.get (ParameterDict.new prefix) "weight"
      (Some [in_units; units]) (Some (Xavier (Q2Qc (224 # 100)))) true;
  '(bias, params) ← ParameterDict.get params "bias"
      (Some [units]) None true;
  mret (mk params units in_units weight bias).

(** [def forward(self, x)]: the parameters are read for the context of [x]. *)
Definition forward (st : store) (self : t) (x : NDArray) : result NDArray :=
  let c := nd.context x in
  w ← data_at st (weight self) c;
  xw ← nd.dot x w;
  b ← data_at st (bias self) c;
  linear ← nd.broadcast Qcplus xw b;
  let activation := relu linear in
  Ok activation.

End MyDense.

(** ** Blocks and [nn.Sequential] *)

Inductive Block : Type :=
  | CenteredLayer_ (params : ParameterDict.t)
  | MyDense_ (self : MyDense.t)
  | Sequential (params : ParameterDict.t) (children : list Block).

(** [CenteredLayer()] and [nn.Sequential()]: a block starts with an empty
    registry. *)
Definition CenteredLayer_new (prefix : string) : Block :=
  CenteredLayer_ (ParameterDict.new prefix).

Definition Sequential_new (prefix : string) : Block :=
  Sequential (ParameterDict.new prefix) [].

(** [net.add(block)] *)
Definition add (net block : Block) : Block :=
  match net with
  | Sequential params children => Sequential params (children ++ [block])
  | _ => net
  end.

(** Modelled from the spec: child prefixes are formed by appending the
    child's local name plus a separator. *)
Definition child_prefix (parent local_name : string) : string :=
  parent +:+ local_name +:+ "_".

Definition params (b : Block) : ParameterDict.t :=
  match b with
  | CenteredLayer_ p => p
  | MyDense_ d => MyDense.params d
  | Sequential p _ => p
  end.

(** Modelled from the spec: CollectParameters, the registry of the block
    merged with the collected parameters of each child in turn. *)
Fixpoint collect_params (b : Block) : result (list (string * loc)) :=
  match b with
  | Sequential p children =>
      foldl (fun acc child =>
               r ← acc; c ← collect_params child; ParameterDict.merge r c)
            (Ok (ParameterDict.items p)) children
  | _ => Ok (ParameterDict.items (params b))
  end.

(** [net(x)]: a block runs its forward transform.  [nn.Sequential] belongs to
    gluon, not to the notebook: it feeds the output of each child to the
    next, in the order they were added. *)
Fixpoint forward (st : store) (b : Block) (x : NDArray) : result NDArray :=
  match b with
  | CenteredLayer_ _ => CenteredLayer.forward x
  | MyDense_ d => MyDense.forward st d x
  | Sequential _ children =>
      foldl (fun acc child => y ← acc; forward st child y) (Ok x) children
  end.

(** [net.collect_params().initialize(init, ctx=ctx)] *)
Definition initialize_all (b : Block) (f : Initializer)
    (ctxs : list Context) : M unit :=
  entries ← lift (collect_params b);
  ParameterDict.initialize entries f ctxs false.

(** ** The training driver *)

(** [ctx = mx.cpu()] *)
Definition ctx : Context := cpu 0.

(** The body of [if i == 0: ... else: ...] of the training loop. *)
Definition update_moving_loss (i : nat) (moving_loss : Qc)
    (cross_entropy : NDArray) : result Qc :=
  if decide (i = 0) then nd.asscalar (nd.mean cross_entropy)
  else
    l ← nd.asscalar (nd.mean cross_entropy);
    Ok (Q2Qc (99 # 100) * moving_loss + Q2Qc (1 # 100) * l)%Qc.

(** [for i, (data, label) in enumerate(train_data)], as far as the moving
    loss goes: the loss tensors of the batches are given in order. *)
Fixpoint batch_loop (i : nat) (moving_loss : Qc)
    (cross_entropies : list NDArray) : result Qc :=
  match cross_entropies with
  | [] => Ok moving_loss
  | ce :: rest =>
      moving_loss' ← update_moving_loss i moving_loss ce;
      batch_loop (S i) moving_loss' rest
  end.

(** [for e in range(epochs)]: the moving loss reported after each epoch. *)
Fixpoint epoch_loop (moving_loss : Qc) (epochs : list (list NDArray)) :
    result (list Qc) :=
  match epochs with
  | [] => Ok []
  | batches :: rest =>
      moving_loss' ← batch_loop 0 moving_loss batches;
      reported ← epoch_loop moving_loss' rest;
      Ok (moving_loss' :: reported)
  end.

(** [moving_loss = 0.] before the loop. *)
Definition training_loop (epochs : list (list NDArray)) : result (list Qc) :=
  epoch_loop 0%Qc epochs.

(** The words of the specification: an exponential moving average with
    decay 0.99 and new-sample weight 0.01, started from a seed. *)
Definition ema (seed : Qc) (losses : list Qc) : Qc :=
  foldl (fun m l => Q2Qc (99 # 100) * m + Q2Qc (1 # 100) * l)%Qc seed losses.

(** The average over the batches of one epoch, seeded by the mean loss of
    its first batch. *)
Definition epoch_loss (cross_entropies : list NDArray) : Qc :=
  match cross_entropies with
  | [] => 0%Qc
  | first :: later => ema (mean_of first) (map mean_of later)
  end.

(** ** [mx.metric.Accuracy] and [evaluate_accuracy] *)

Module Accuracy.

(** Modelled from the spec: the accuracy accumulator of the metric library,
    with its running counts. *)
Record t : Type := mk {
  sum_metric : nat;
  num_inst : nat
}.

Definition new : t := mk 0 0.

Fixpoint argmax_from (best : nat) (best_v : Qc) (i : nat) (row : list Qc) :
    nat :=
  match row with
  | [] => best
  | v :: rest =>
      if decide (best_v < v)%Qc then argmax_from i v (S i) rest
      else argmax_from best best_v (S i) rest
  end.

Definition argmax (row : list Qc) : nat :=
  match row with
  | [] => 0
  | v :: rest => argmax_from 0 v 1 rest
  end.

(** Modelled from the spec: the running count of correct predictions grows
    by the rows of [pred] whose largest entry is at the label. *)
Definition hits (label pred : NDArray) : nat :=
  let k := default 1 (last (nd.shape pred)) in
  length (filter (fun '(r, l) =>
            Qc_of_nat (argmax (take k (drop (r * k) (nd.data pred)))) = l)
          (zip (seq 0 (length (nd.data label))) (nd.data label))).

(** Modelled from the spec: [metric.update(labels, preds)]. *)
Fixpoint update (labels preds : list NDArray) (self : t) : t :=
  match labels, preds with
  | label :: labels', pred :: preds' =>
      update labels' preds'
        (mk (sum_metric self + hits label pred)
            (num_inst self + length (nd.data label)))
  | _, _ => self
  end.

(** Modelled from the spec: [metric.get()[1]], the ratio of the counts;
    [None] stands for the undefined ratio 0/0. *)
Definition get (self : t) : option Qc :=
  if decide (num_inst self = 0) then None
  else Some (Qc_of_nat (sum_metric self) / Qc_of_nat (num_inst self))%Qc.

End Accuracy.

(** The loop of [evaluate_accuracy]; [metric] is the module-level object,
    so its state is threaded through and survives an exception.  The unused
    [label_one_hot] is left out. *)
Fixpoint evaluate_loop (st : store) (data_iterator : list (NDArray * NDArray))
    (net : Block) (metric : Accuracy.t) : result unit * Accuracy.t :=
  match data_iterator with
  | [] => (Ok tt, metric)
  | (data, label) :: rest =>
      match (data ← nd.reshape_rows (nd.as_in_context data ctx) 784;
             forward st net data) with
      | Ok output =>
          let label := nd.as_in_context label ctx in
          evaluate_loop st rest net (Accuracy.update [label] [output] metric)
      | Err e => (Err e, metric)
      end
  end.

(** [def evaluate_accuracy(data_iterator, net)] *)
Definition evaluate_accuracy (st : store)
    (data_iterator : list (NDArray * NDArray)) (net : Block)
    (metric : Accuracy.t) : result (option Qc) * Accuracy.t :=
  match evaluate_loop st data_iterator net metric with
  | (Ok _, metric') => (Ok (Accuracy.get metric'), metric')
  | (Err e, metric') => (Err e, metric')
  end.

(** A call of [evaluate_accuracy] with the parameter values of its time. *)
Record call : Type := mkCall {
  call_store : store;
  call_data : list (NDArray * NDArray);
  call_net : Block
}.

(** Successive calls of [evaluate_accuracy] on the one metric object. *)
Fixpoint evaluate_calls (calls : list call) (metric : Accuracy.t) :
    list (result (option Qc)) * Accuracy.t :=
  match calls with
  | [] => ([], metric)
  | c :: rest =>
      let '(r, metric') :=
        evaluate_accuracy (call_store c) (call_data c) (call_net c) metric in
      let '(rs, metric'') := evaluate_calls rest metric' in
      (r :: rs, metric'')
  end.

(** The blocks directly below a block. *)
Definition children (b : Block) : list Block :=
  match b with
  | Sequential _ cs => cs
  | _ => []
  end.

(** The (label, output) pairs that one call of [evaluate_accuracy] hands
    to the metric, up to the first batch that raises, and the error raised
    there if any. *)
Fixpoint processed (st : store) (data_iterator : list (NDArray * NDArray))
    (net : Block) : list (NDArray * NDArray) * option error :=
  match data_iterator with
  | [] => ([], None)
  | (data, label) :: rest =>
      match (data ← nd.reshape_rows (nd.as_in_context data ctx) 784;
             forward st net data) with
      | Ok output =>
          let '(pairs, e) := processed st rest net in
          ((nd.as_in_context label ctx, output) :: pairs, e)
      | Err e => ([], Some e)
      end
  end.

(** The same for a recorded call. *)
Definition pairs_of (c : call) : list (NDArray * NDArray) :=
  (processed (call_store c) (call_data c) (call_net c)).1.

Definition error_of (c : call) : option error :=
  (processed (call_store c) (call_data c) (call_net c)).2.

(** The accuracy over a collection of (label, output) pairs: correct
    predictions over instances. *)
Definition count_hits (pairs : list (NDArray * NDArray)) : nat :=
  foldr (fun '(label, output) n => Accuracy.hits label output + n) 0 pairs.

Definition count_inst (pairs : list (NDArray * NDArray)) : nat :=
  foldr (fun '(label, _) n => length (nd.data label) + n) 0 pairs.

Definition accuracy_over (pairs : list (NDArray * NDArray)) : option Qc :=
  Accuracy.get (Accuracy.mk (count_hits pairs) (count_inst pairs)).

(** A batch of one flattened image whose largest pixel is at [hot], with
    its label. *)
Definition one_hot_batch (hot label : nat) : NDArray * NDArray :=
  (nd.mkNDArray ctx [1; 784]
     (map (fun i => if decide (i = hot) then 1%Qc else 0%Qc) (seq 0 784)),
   nd.array [Qc_of_nat label]).

(** ** Examples from the notebook *)

(** An initializer with values of both signs. *)
Definition ramp : Initializer := fun _ _ i => (Qc_of_nat i - 2)%Qc.

(** [dense = MyDense(20, in_units=10)] followed by
    [dense.collect_params().initialize(ctx=ctx)]. *)
Definition dense_example (Xavier : Qc -> Initializer) (f : Initializer) :
    result MyDense.t * store :=
  (dense ← MyDense.__init__ Xavier "mydense0_" 20 10;
   _ ← initialize_all (MyDense_ dense) f [ctx];
   mret dense) [].

(** The block [dense] that this builds. *)
Definition dense : MyDense.t :=
  MyDense.mk (ParameterDict.mk "mydense0_" [("weight", 0); ("bias", 1)])
    20 10 0 1.

(** The three layers of [net] and the block [net] that the next example
    builds. *)
Definition layer0 : MyDense.t :=
  MyDense.mk (ParameterDict.mk "sequential1_mydense0_"
                [("weight", 0); ("bias", 1)]) 128 784 0 1.
Definition layer1 : MyDense.t :=
  MyDense.mk (ParameterDict.mk "sequential1_mydense1_"
                [("weight", 2); ("bias", 3)]) 64 128 2 3.
Definition layer2 : MyDense.t :=
  MyDense.mk (ParameterDict.mk "sequential1_mydense2_"
                [("weight", 4); ("bias", 5)]) 10 64 4 5.

Definition net : Block :=
  Sequential (ParameterDict.new "sequential1_")
    [MyDense_ layer0; MyDense_ layer1; MyDense_ layer2].

(** The handles of [net] as its three layers construct them. *)
Definition net_store (Xavier : Qc -> Initializer) : store :=
  [Param.construct "sequential1_mydense0_weight" (Some [784; 128]) true
     (Some (Xavier (Q2Qc (224 # 100))));
   Param.construct "sequential1_mydense0_bias" (Some [128]) true None;
   Param.construct "sequential1_mydense1_weight" (Some [128; 64]) true
     (Some (Xavier (Q2Qc (224 # 100))));
   Param.construct "sequential1_mydense1_bias" (Some [64]) true None;
   Param.construct "sequential1_mydense2_weight" (Some [64; 10]) true
     (Some (Xavier (Q2Qc (224 # 100))));
   Param.construct "sequential1_mydense2_bias" (Some [10]) true None].

(** [net = gluon.nn.Sequential()] with its three [MyDense] layers added
    under the name scope of [net], followed by
    [net.collect_params().initialize(ctx=ctx)]. *)
Definition net_example (Xavier : Qc -> Initializer) (f : Initializer) :
    result Block * store :=
  (let prefix := "sequential1_" in
   let net := Sequential_new prefix in
   d1 ← MyDense.__init__ Xavier (child_prefix prefix "mydense0") 128 784;
   let net := add net (MyDense_ d1) in
   d2 ← MyDense.__init__ Xavier (child_prefix prefix "mydense1") 64 128;
   let net := add net (MyDense_ d2) in
   d3 ← MyDense.__init__ Xavier (child_prefix prefix "mydense2") 10 64;
   let net := add net (MyDense_ d3) in
   _ ← initialize_all net f [ctx];
   mret net) [].

(** [MyDense(20)], with [in_units] left at 0, followed by the attempt
    [collect_params().initialize(ctx=ctx)]. *)
Definition lazy_example (Xavier : Qc -> Initializer) (f : Initializer) :
    MyDense.t * result unit * store :=
  match MyDense.__init__ Xavier "mydense0_" 20 0 [] with
  | (Ok dense, st) =>
      let '(r, st') := initialize_all (MyDense_ dense) f [ctx] st in
      (dense, r, st')
  | (Err e, st) => (MyDense.mk (ParameterDict.new "") 0 0 0 0, Err e, st)
  end.

(** ** The data pipeline and scalar arithmetic on arrays *)



(** Row [r] of an array whose rows have [k] elements. *)
Definition row (x : NDArray) (k r : nat) : list Qc :=
  take k (drop (r * k) (nd.data x)).

(** ** One batch of [evaluate_accuracy] *)

(** [net(data.as_in_context(ctx).reshape((-1,784)))] for the data of one
    batch. *)
Definition batch_output (st : store) (net : Block) (data : NDArray) :
    result NDArray :=
  data ← nd.reshape_rows (nd.as_in_context data ctx) 784;
  forward st net data.

(** What one batch adds to the counts of the metric. *)
Definition batch_hits (st : store) (net : Block)
    (batch : NDArray * NDArray) : nat :=
  match batch_output st net batch.1 with
  | Ok output => Accuracy.hits (nd.as_in_context batch.2 ctx) output
  | Err _ => 0
  end.

Definition batch_inst (batch : NDArray * NDArray) : nat :=
  length (nd.data batch.2).

(** * Properties *)

(** ** The outputs shown in the notebook *)

(** [net(nd.array([1,2,3,4,5]))] prints [-2. -1. 0. 1. 2.]. *)
Example centered_output :
  (y ← CenteredLayer.forward
         (nd.array (map Qc_of_nat [1; 2; 3; 4; 5]));
   Ok (nd.shape y, map this (nd.data y)))
  = Ok ([5], [-2 # 1; -1 # 1; 0 # 1; 1 # 1; 2 # 1]%Q).
Proof. vm_compute. reflexivity. Qed.

(** [pd.get("exciting_parameter_yay", grad_req='write', shape=(5,5))] prints
    the name [block1_exciting_parameter_yay], and the handle is found again
    under that name. *)
Example registry_output :
  let '(r, st) :=
    ParameterDict.get (ParameterDict.new "block1_") "exciting_parameter_yay"
      (Some [5; 5]) None true [] in
  match r with
  | Ok (l, pd) =>
      Param.name <$> st !! l = Some "block1_exciting_parameter_yay" /\
      ParameterDict.getitem pd "block1_exciting_parameter_yay" = Ok l /\
      ParameterDict.getitem pd "exciting_parameter_yay" = Err KeyNotFoundError
  | Err _ => False
  end.
Proof. vm_compute. repeat split. Qed.

(** [dense.params] lists [mydense0_weight] and [mydense0_bias]. *)
Example dense_params_output :
  ParameterDict.keys (MyDense.params dense)
  = ["mydense0_weight"; "mydense0_bias"].
Proof. reflexivity. Qed.

(** The rectifier on a negative, a zero and a positive entry. *)
Example relu_output :
  map this (nd.data (relu (nd.array [(-1)%Qc; 0%Qc; 2%Qc])))
  = [0 # 1; 0 # 1; 2 # 1]%Q.
Proof. vm_compute. reflexivity. Qed.

(** ** The error monad *)

Lemma bind_Ok {A B} (f : A -> result B) (m : result A) (b : B) :
  m ≫= f = Ok b -> exists a, m = Ok a /\ f a = Ok b.
Proof. destruct m as [a|e]; simpl; [eauto | discriminate]. Qed.

(** Unfolds one step of a computation in the store monad. *)
Ltac run_store :=
  unfold initialize_at, mbind, M_bind, read, lift, write, alloc, fail.

(** ** Lists and tables *)

Lemma flat_map_rows_length {A} (m : nat) (f : nat -> nat -> A) n s :
  length (flat_map (fun r => map (f r) (seq 0 m)) (seq s n)) = n * m.
Proof.
  revert s; induction n as [|n IH]; intros s; simpl; [reflexivity|].
  rewrite length_app, length_map, length_seq, IH. reflexivity.
Qed.

Lemma flat_map_rows_lookup {A} (m : nat) (f : nat -> nat -> A) n s r j :
  r < n -> j < m ->
  flat_map (fun r => map (f r) (seq 0 m)) (seq s n) !! (r * m + j)
  = Some (f (s + r) j).
Proof.
  revert s r; induction n as [|n IH]; intros s r Hr Hj; [lia|].
  simpl. destruct r as [|r].
  - rewrite lookup_app_l by (rewrite length_map, length_seq; simpl; lia).
    simpl. rewrite list_lookup_fmap, lookup_seq_lt by lia.
    simpl. rewrite Nat.add_0_r. reflexivity.
  - rewrite lookup_app_r by (rewrite length_map, length_seq; simpl; lia).
    rewrite length_map, length_seq.
    replace (S r * m + j - m) with (r * m + j) by (simpl; lia).
    rewrite IH by lia. f_equal. f_equal. lia.
Qed.

Lemma tabulate2_length {A} n m (f : nat -> nat -> A) :
  length (tabulate2 n m f) = n * m.
Proof. apply flat_map_rows_length. Qed.

Lemma tabulate2_lookup {A} n m (f : nat -> nat -> A) r j :
  r < n -> j < m -> tabulate2 n m f !! (r * m + j) = Some (f r j).
Proof. intros. unfold tabulate2. rewrite flat_map_rows_lookup; auto. Qed.

Lemma take_drop_nth (xs : list Qc) o k :
  o + k <= length xs ->
  take k (drop o xs) = map (fun i => nth (o + i) xs 0%Qc) (seq 0 k).
Proof.
  intros H. apply list_eq. intros i.
  rewrite list_lookup_fmap.
  destruct (decide (i < k)) as [Hi|Hi].
  - rewrite lookup_take_lt, lookup_drop, lookup_seq_lt by lia. simpl.
    destruct (nth_lookup_or_length xs (o + i) 0%Qc) as [->|]; [done | lia].
  - rewrite lookup_take_ge, lookup_seq_ge by lia. reflexivity.
Qed.

Lemma zip_with_map_same {A B C D} (f : B -> C -> D) (g : A -> B) (h : A -> C)
    (l : list A) :
  zip_with f (map g l) (map h l) = map (fun i => f (g i) (h i)) l.
Proof. induction l; simpl; congruence. Qed.

(** ** Scalars *)

Lemma Qc_max_zero_activation (v : Qc) : Qc_max v 0%Qc = activation v.
Proof.
  unfold Qc_max, activation.
  destruct (decide (v <= 0)%Qc) as [Hle|Hle], (decide (0 < v)%Qc) as [Hlt|Hlt];
    try reflexivity.
  - exfalso. apply Qcle_not_lt in Hle. contradiction.
  - exfalso. apply Hle. apply Qcnot_lt_le. exact Hlt.
Qed.

Lemma activation_nonneg (v : Qc) : (0 <= activation v)%Qc.
Proof.
  unfold activation. destruct (decide (0 < v)%Qc) as [H|H].
  - apply Qclt_le_weak. exact H.
  - apply Qcle_refl.
Qed.

(** ** The tensor library *)

Lemma dot_matrix (x w : NDArray) (lead : list nat) (k m : nat) :
  nd.shape x = lead ++ [k] ->
  nd.shape w = [k; m] ->
  length (nd.data x) = size lead * k ->
  exists y, nd.dot x w = Ok y /\
    nd.context y = nd.context x /\
    nd.shape y = lead ++ [m] /\
    length (nd.data y) = size lead * m /\
    forall r j, r < size lead -> j < m ->
      nd.data y !! (r * m + j) =
      Some (Qc_sum (map (fun i => (nth (r * k + i) (nd.data x) 0 *
                                   nth (i * m + j) (nd.data w) 0)%Qc)
                        (seq 0 k))).
Proof.
  intros Hx Hw Hlen. unfold nd.dot.
  rewrite Hx, Hw, last_snoc, removelast_last.
  rewrite decide_True by reflexivity.
  replace (size [m]) with m by (simpl; lia).
  eexists; split; [reflexivity|]. simpl.
  split; [reflexivity|]. split; [reflexivity|].
  split; [apply tabulate2_length|].
  intros r j Hr Hj. rewrite tabulate2_lookup by assumption.
  f_equal. unfold nd.dotp.
  rewrite take_drop_nth by nia.
  rewrite zip_with_map_same. reflexivity.
Qed.

Lemma broadcast_rows (f : Qc -> Qc -> Qc) (a b : NDArray) (lead : list nat)
    (u : nat) :
  nd.shape a = lead ++ [u] ->
  nd.shape b = [u] ->
  length (nd.data a) = size lead * u ->
  length (nd.data b) = u ->
  exists y, nd.broadcast f a b = Ok y /\
    nd.context y = nd.context a /\
    nd.shape y = nd.shape a /\
    length (nd.data y) = length (nd.data a) /\
    forall i v, nd.data a !! i = Some v ->
      nd.data y !! i = Some (f v (nth (i mod u) (nd.data b) 0%Qc)).
Proof.
  intros Ha Hb Hla Hlb. unfold nd.broadcast.
  destruct (decide (nd.shape a = nd.shape b)) as [Heq|Hne].
  - eexists; split; [reflexivity|]. simpl.
    assert (lead = []) as ->.
    { rewrite Ha, Hb in Heq. destruct lead as [|d [|d' lead]]; try done. }
    simpl in Hla.
    split; [reflexivity|]. split; [reflexivity|].
    split; [rewrite length_zip_with; lia|].
    intros i v Hi. apply lookup_lt_Some in Hi as Hlt.
    rewrite lookup_zip_with, Hi. simpl.
    rewrite Nat.mod_small by lia.
    destruct (nth_lookup_or_length (nd.data b) i 0%Qc) as [->|]; [done|lia].
  - rewrite Ha, Hb, last_snoc.
    rewrite decide_True by (right; reflexivity).
    eexists; split; [reflexivity|]. simpl.
    split; [reflexivity|]. split; [reflexivity|].
    split; [apply length_imap|].
    intros i v Hi. rewrite list_lookup_imap, Hi. reflexivity.
Qed.

Lemma relu_lookup (X : NDArray) i v :
  nd.data X !! i = Some v -> nd.data (relu X) !! i = Some (activation v).
Proof.
  intros H. unfold relu, nd.maximum. simpl.
  rewrite list_lookup_fmap, H. simpl. rewrite Qc_max_zero_activation.
  reflexivity.
Qed.

Lemma relu_nonneg (X : NDArray) :
  Forall (fun v => 0 <= v)%Qc (nd.data (relu X)).
Proof.
  unfold relu, nd.maximum. simpl. apply Forall_forall. intros v Hv.
  apply list_elem_of_fmap in Hv as (u & -> & _).
  rewrite Qc_max_zero_activation. apply activation_nonneg.
Qed.

(** ** [MyDense.forward] *)

Lemma MyDense_forward_affine (st : store) (self : MyDense.t) (x w b : NDArray)
    (lead : list nat) (in_units : nat) :
  data_at st (MyDense.weight self) (nd.context x) = Ok w ->
  data_at st (MyDense.bias self) (nd.context x) = Ok b ->
  nd.shape w = [in_units; MyDense.units self] ->
  nd.shape b = [MyDense.units self] ->
  length (nd.data b) = MyDense.units self ->
  nd.shape x = lead ++ [in_units] ->
  length (nd.data x) = size lead * in_units ->
  exists y, MyDense.forward st self x = Ok y /\
    nd.context y = nd.context x /\
    nd.shape y = lead ++ [MyDense.units self] /\
    length (nd.data y) = size lead * MyDense.units self /\
    Forall (fun v => 0 <= v)%Qc (nd.data y) /\
    forall r j, r < size lead -> j < MyDense.units self ->
      nd.data y !! (r * MyDense.units self + j) =
      Some (activation (affine x w b in_units (MyDense.units self) r j)).
Proof.
  intros Hw Hb Hsw Hsb Hlb Hsx Hlx.
  destruct (dot_matrix x w lead in_units _ Hsx Hsw Hlx)
    as (xw & Hdot & Hcxw & Hsxw & Hlxw & Hxw).
  destruct (broadcast_rows Qcplus xw b lead _ Hsxw Hsb Hlxw Hlb)
    as (lin & Hadd & Hcl & Hsl & Hll & Hlin).
  exists (relu lin). unfold MyDense.forward.
  rewrite Hw. simpl. rewrite Hdot. simpl. rewrite Hb. simpl.
  rewrite Hadd. simpl.
  split; [reflexivity|].
  split; [congruence|]. split; [congruence|].
  split; [rewrite length_map; congruence|].
  split; [apply relu_nonneg|].
  intros r j Hr Hj. apply relu_lookup.
  rewrite (Hlin _ _ (Hxw r j Hr Hj)).
  rewrite Nat.add_comm, Nat.Div0.mod_add, Nat.mod_small by lia.
  reflexivity.
Qed.

(** C1: for an initialized [MyDense] whose weight handle has shape
    (in_units, units) and whose bias handle has shape (units,), and an input
    [x] whose trailing dimension is in_units, [forward] returns the array of
    [activation (x . weight + bias)]: row [r], unit [j] of the output is the
    rectifier of the affine map, the leading dimensions of [x] are kept and
    the trailing one becomes units. *)
Theorem MyDense_forward_correct (st : store) (self : MyDense.t)
    (x w b : NDArray) (pw pb : Param.t) (lead : list nat) (in_units : nat) :
  st !! MyDense.weight self = Some pw ->
  st !! MyDense.bias self = Some pb ->
  Param.shape pw = Some [in_units; MyDense.units self] ->
  Param.shape pb = Some [MyDense.units self] ->
  storage_ok pw -> storage_ok pb ->
  Param._data pw !! nd.context x = Some w ->
  Param._data pb !! nd.context x = Some b ->
  nd.shape x = lead ++ [in_units] ->
  length (nd.data x) = size lead * in_units ->
  exists y, MyDense.forward st self x = Ok y /\
    nd.shape y = lead ++ [MyDense.units self] /\
    length (nd.data y) = size lead * MyDense.units self /\
    forall r j, r < size lead -> j < MyDense.units self ->
      nd.data y !! (r * MyDense.units self + j) =
      Some (activation (affine x w b in_units (MyDense.units self) r j)).
Proof.
  intros Hpw Hpb Hsw Hsb Hokw Hokb Hw Hb Hsx Hlx.
  destruct (Hokw _ _ Hw) as (Hsw' & _ & _).
  destruct (Hokb _ _ Hb) as (Hsb' & (_ & _ & Hlb) & _).
  rewrite Hsw in Hsw'. rewrite Hsb in Hsb'.
  injection Hsw' as Hsw'. injection Hsb' as Hsb'.
  rewrite <- Hsb' in Hlb. simpl in Hlb. rewrite Nat.mul_1_r in Hlb.
  destruct (MyDense_forward_affine st self x w b lead in_units)
    as (y & Hy & _ & Hshape & Hlen & _ & Hval); try (symmetry; assumption);
    try assumption.
  - unfold data_at. rewrite Hpw. unfold Param.data. rewrite Hw. reflexivity.
  - unfold data_at. rewrite Hpb. unfold Param.data. rewrite Hb. reflexivity.
  - exists y. auto.
Qed.

(** ** Parameter handles *)

Lemma shape_known_Some (s : option (list nat)) (s' : list nat) :
  Param.shape_known s = Some s' ->
  s = Some s' /\ s' <> [] /\ Forall (fun d => 0 < d) s'.
Proof.
  unfold Param.shape_known. destruct s as [[|d ds]|]; try discriminate.
  destruct (forallb (Nat.ltb 0) (d :: ds)) eqn:Hall; [|discriminate].
  intros [= <-]. split; [reflexivity|]. split; [discriminate|].
  apply Forall_forall. intros e He.
  rewrite forallb_forall in Hall. apply Nat.ltb_lt, Hall.
  apply list_elem_of_In. exact He.
Qed.

Lemma fill_well_formed (f : Initializer) (s : list nat) (c : Context) :
  s <> [] -> Forall (fun d => 0 < d) s -> nd.well_formed (Param.fill f s c).
Proof.
  intros Hne Hpos. unfold nd.well_formed, Param.fill. simpl.
  rewrite length_map, length_seq. auto.
Qed.

Lemma construct_storage_ok name shape grad_req init :
  storage_ok (Param.construct name shape grad_req init).
Proof. intros c a H. simpl in H. rewrite lookup_empty in H. discriminate. Qed.

Lemma initialize_ctx_inv (f : Initializer) (force : bool) (p p' : Param.t)
    (c : Context) :
  Param.initialize_ctx f force p c = Ok p' ->
  Param.name p' = Param.name p /\ Param.shape p' = Param.shape p /\
  (storage_ok p -> storage_ok p') /\
  forall c', is_Some (Param._data p' !! c') <->
             is_Some (Param._data p !! c') \/ c' = c.
Proof.
  unfold Param.initialize_ctx. intros H.
  assert (Hkeep : p' = p -> is_Some (Param._data p !! c) ->
    Param.name p' = Param.name p /\ Param.shape p' = Param.shape p /\
    (storage_ok p -> storage_ok p') /\
    forall c', is_Some (Param._data p' !! c') <->
               is_Some (Param._data p !! c') \/ c' = c).
  { intros -> Hc. split; [reflexivity|]. split; [reflexivity|].
    split; [auto|]. intros c'. split; [auto|]. intros [?| ->]; auto. }
  assert (Hnew : forall s, Param.shape_known (Param.shape p) = Some s ->
    p' = Param.mk (Param.name p) (Param.shape p) (Param.grad_req p)
           (Param.init p) (<[c := Param.fill f s c]> (Param._data p))
           (if Param.grad_req p then <[c := nd.zeros c s]> (Param._grad p)
            else Param._grad p) ->
    Param.name p' = Param.name p /\ Param.shape p' = Param.shape p /\
    (storage_ok p -> storage_ok p') /\
    forall c', is_Some (Param._data p' !! c') <->
               is_Some (Param._data p !! c') \/ c' = c).
  { intros s Hs ->. simpl. apply shape_known_Some in Hs as (Hs & Hne & Hpos).
    split; [reflexivity|]. split; [reflexivity|]. split.
    - intros Hok c0 a Ha. simpl in Ha |- *.
      destruct (decide (c = c0)) as [<-|Hcc].
      + rewrite lookup_insert_eq in Ha. injection Ha as <-.
        split; [exact Hs|]. split; [|reflexivity].
        apply fill_well_formed; assumption.
      + rewrite lookup_insert_ne in Ha by exact Hcc. apply (Hok _ _ Ha).
    - intros c'. destruct (decide (c = c')) as [<-|Hcc].
      + rewrite lookup_insert_eq. split; eauto.
      + rewrite lookup_insert_ne by exact Hcc.
        split; [auto | intros [?|?]; [auto | congruence]].
  }
  destruct (Param._data p !! c) as [a|] eqn:Hc, force;
    try (injection H as <-; apply Hkeep; eauto);
    (destruct (Param.shape_known (Param.shape p)) as [s|] eqn:Hs;
     [injection H as <-; apply (Hnew s); auto | discriminate]).
Qed.

Lemma initialize_inv (f : Initializer) (force : bool) (ctxs : list Context)
    (p p' : Param.t) :
  Param.initialize f ctxs force p = Ok p' ->
  Param.name p' = Param.name p /\ Param.shape p' = Param.shape p /\
  (storage_ok p -> storage_ok p') /\
  forall c, is_Some (Param._data p' !! c) <->
            is_Some (Param._data p !! c) \/ c ∈ ctxs.
Proof.
  revert p. induction ctxs as [|c0 cs IH]; intros p H; simpl in H.
  - injection H as <-. split; [reflexivity|]. split; [reflexivity|].
    split; [auto|]. intros c. rewrite elem_of_nil. tauto.
  - apply bind_Ok in H as (q & Hq & H).
    apply initialize_ctx_inv in Hq as (Hn & Hs & Hok & Hdom).
    apply IH in H as (Hn' & Hs' & Hok' & Hdom').
    split; [congruence|]. split; [congruence|]. split; [auto|].
    intros c. rewrite Hdom', Hdom, elem_of_cons. tauto.
Qed.

Lemma initialize_calls_inv (calls : list (Initializer * list Context * bool))
    (p p' : Param.t) :
  initialize_calls calls p = Ok p' ->
  Param.name p' = Param.name p /\ Param.shape p' = Param.shape p /\
  (storage_ok p -> storage_ok p') /\
  forall c, is_Some (Param._data p' !! c) <->
            is_Some (Param._data p !! c) \/ initialized_for c calls.
Proof.
  revert p. induction calls as [|[[f ctxs] force] rest IH]; intros p H;
    simpl in H.
  - injection H as <-. split; [reflexivity|]. split; [reflexivity|].
    split; [auto|]. intros c. unfold initialized_for. rewrite Exists_nil.
    tauto.
  - apply bind_Ok in H as (q & Hq & H).
    apply initialize_inv in Hq as (Hn & Hs & Hok & Hdom).
    apply IH in H as (Hn' & Hs' & Hok' & Hdom').
    split; [congruence|]. split; [congruence|]. split; [auto|].
    intros c. unfold initialized_for in *.
    rewrite Hdom', Hdom, Exists_cons. simpl. tauto.
Qed.

(** Initialization fails exactly on a shape that is not known, when there is
    something to allocate. *)
Lemma initialize_ctx_unknown (f : Initializer) (force : bool) (p : Param.t)
    (c : Context) :
  Param.shape_known (Param.shape p) = None ->
  Param._data p !! c = None ->
  Param.initialize_ctx f force p c = Err ShapeUndefinedError.
Proof.
  intros Hs Hc. unfold Param.initialize_ctx. rewrite Hc, Hs. reflexivity.
Qed.

Lemma initialize_known (f : Initializer) (force : bool)
    (ctxs : list Context) (p : Param.t) (s : list nat) :
  Param.shape_known (Param.shape p) = Some s ->
  exists p', Param.initialize f ctxs force p = Ok p'.
Proof.
  revert p. induction ctxs as [|c cs IH]; intros p Hs; simpl; [eauto|].
  assert (exists q, Param.initialize_ctx f force p c = Ok q) as (q & Hq).
  { unfold Param.initialize_ctx. rewrite Hs.
    destruct (Param._data p !! c), force; eauto. }
  rewrite Hq. simpl. apply IH.
  apply initialize_ctx_inv in Hq as (_ & -> & _). exact Hs.
Qed.

(** C7: on a handle just constructed and initialized by any successful
    calls, [data(c)] fails with [UninitializedError] as long as no call
    named context [c]; once a call did, [data(c)] returns a tensor of
    exactly the declared shape. *)
Theorem data_uninitialized_then_declared_shape
    (name : string) (shape : option (list nat)) (grad_req : bool)
    (init : option Initializer)
    (calls : list (Initializer * list Context * bool)) (p : Param.t)
    (c : Context) :
  initialize_calls calls (Param.construct name shape grad_req init) = Ok p ->
  (~ initialized_for c calls -> Param.data p c = Err UninitializedError) /\
  (initialized_for c calls ->
   exists a, Param.data p c = Ok a /\ shape = Some (nd.shape a) /\
             nd.well_formed a).
Proof.
  intros H. apply initialize_calls_inv in H as (_ & Hs & Hok & Hdom).
  specialize (Hok (construct_storage_ok _ _ _ _)).
  specialize (Hdom c). simpl in Hdom, Hs. rewrite lookup_empty in Hdom.
  unfold Param.data. split.
  - intros Hno. destruct (Param._data p !! c) as [a|] eqn:Ha; [|reflexivity].
    exfalso. apply Hno. destruct Hdom as [[[? [=]]|Hin] _]; eauto.
  - intros Hyes. destruct Hdom as [_ [a Ha]]; [auto|].
    exists a. rewrite Ha. split; [reflexivity|].
    destruct (Hok _ _ Ha) as (Hshape & Hwf & _).
    split; [congruence | exact Hwf].
Qed.

Lemma data_uninitialized_then_declared_shape_witness :
  let my_param :=
    Param.construct "exciting_parameter_yay" (Some [5; 5]) true None in
  exists p a,
    initialize_calls [(ramp, [ctx], false)] my_param = Ok p /\
    Param.data my_param ctx = Err UninitializedError /\
    Param.data p ctx = Ok a /\ nd.shape a = [5; 5].
Proof.
  intros my_param.
  destruct (initialize_known ramp false [ctx] my_param [5; 5] eq_refl)
    as (p & Hp).
  assert (E : initialize_calls [(ramp, [ctx], false)] my_param = Ok p).
  { cbn [initialize_calls]. rewrite Hp. reflexivity. }
  destruct (data_uninitialized_then_declared_shape _ _ _ _ _ _ ctx E)
    as (_ & H).
  destruct H as (a & Ha & Hs & _).
  { left. simpl. left. }
  exists p, a. split; [exact E|]. split; [reflexivity|].
  split; [exact Ha|]. injection Hs as Hs. symmetry. exact Hs.
Defined.

(** ** The registry *)

Lemma lookup_None_keys (key : string) (entries : list (string * loc)) :
  ParameterDict.lookup key entries = None <-> key ∉ map fst entries.
Proof.
  induction entries as [|[k l] rest IH]; simpl.
  - split; [intros _; apply not_elem_of_nil | reflexivity].
  - rewrite not_elem_of_cons. destruct (decide (k = key)) as [->|Hne].
    + split; [discriminate | intros [[] _]; reflexivity].
    + rewrite IH. split; [auto | tauto].
Qed.

Lemma lookup_Some_keys (key : string) (entries : list (string * loc)) l :
  ParameterDict.lookup key entries = Some l -> key ∈ map fst entries.
Proof.
  intros H. destruct (decide (key ∈ map fst entries)) as [|Hn]; [assumption|].
  apply lookup_None_keys in Hn. congruence.
Qed.

Lemma lookup_snoc (key : string) (entries : list (string * loc)) (l : loc) :
  ParameterDict.lookup key entries = None ->
  ParameterDict.lookup key (entries ++ [(key, l)]) = Some l.
Proof.
  induction entries as [|[k l0] rest IH]; simpl; intros H.
  - rewrite decide_True by reflexivity. reflexivity.
  - destruct (decide (k = key)); [discriminate | auto].
Qed.

Lemma get_cases (self : ParameterDict.t) (local_name : string)
    (shape : option (list nat)) (init : option Initializer) (grad_req : bool)
    (st : store) (l : loc) (self' : ParameterDict.t) (st' : store) :
  ParameterDict.get self local_name shape init grad_req st
    = (Ok (l, self'), st') ->
  (ParameterDict.lookup local_name (ParameterDict._params self) = Some l /\
   self' = self /\ st' = st /\
   exists p, st !! l = Some p /\
             ParameterDict.compatible (Param.shape p) shape = true) \/
  (ParameterDict.lookup local_name (ParameterDict._params self) = None /\
   l = length st /\
   self' = ParameterDict.mk (ParameterDict.prefix self)
             (ParameterDict._params self ++ [(local_name, l)]) /\
   st' = st ++ [Param.construct (ParameterDict.prefix self +:+ local_name)
                  shape grad_req init]).
Proof.
  unfold ParameterDict.get.
  destruct (ParameterDict.lookup local_name (ParameterDict._params self))
    as [l0|] eqn:Hl.
  - run_store. destruct (st !! l0) as [p|] eqn:Hp;
      [|discriminate].
    destruct (ParameterDict.compatible (Param.shape p) shape) eqn:Hc;
      [|discriminate].
    intros [= <- <- <-]. left. eauto 10.
  - run_store. simpl. intros [= <- <- <-]. right. auto.
Qed.

(** C3: once [get] has returned a handle for a local name, calling [get]
    again with the same local name returns the same handle (the same
    location in the store) and changes nothing, for the same shape and for
    every shape compatible with the handle's; with a shape that differs from
    the handle's shape it fails with [ShapeMismatchError]. *)
Theorem get_idempotent (self : ParameterDict.t) (local_name : string)
    (shape : option (list nat)) (init : option Initializer) (grad_req : bool)
    (st : store) (l : loc) (self' : ParameterDict.t) (st' : store) :
  ParameterDict.get self local_name shape init grad_req st
    = (Ok (l, self'), st') ->
  exists p, st' !! l = Some p /\
    (forall init2 grad_req2,
       ParameterDict.get self' local_name shape init2 grad_req2 st'
       = (Ok (l, self'), st')) /\
    (forall shape2 init2 grad_req2,
       Param.shape p = None \/ shape2 = None \/ Param.shape p = shape2 ->
       ParameterDict.get self' local_name shape2 init2 grad_req2 st'
       = (Ok (l, self'), st')) /\
    (forall s s2 init2 grad_req2,
       Param.shape p = Some s -> s2 <> s ->
       ParameterDict.get self' local_name (Some s2) init2 grad_req2 st'
       = (Err ShapeMismatchError, st')).
Proof.
  intros H.
  assert (exists p, st' !! l = Some p /\
            ParameterDict.lookup local_name (ParameterDict._params self')
              = Some l /\
            ParameterDict.compatible (Param.shape p) shape = true)
    as (p & Hp & Hl & Hc).
  { apply get_cases in H as [(Hl & -> & -> & p & Hp & Hc)
                            |(Hl & -> & -> & ->)].
    - eauto.
    - eexists. split; [apply list_lookup_middle; reflexivity|].
      split; [apply lookup_snoc; exact Hl|].
      simpl. destruct shape; [apply bool_decide_eq_true|]; reflexivity. }
  assert (Hagain : forall shape2 init2 grad_req2,
    ParameterDict.compatible (Param.shape p) shape2 = true ->
    ParameterDict.get self' local_name shape2 init2 grad_req2 st'
    = (Ok (l, self'), st')).
  { intros shape2 init2 grad_req2 Hc2. unfold ParameterDict.get.
    rewrite Hl. run_store. rewrite Hp, Hc2. reflexivity. }
  exists p. split; [exact Hp|]. split; [|split].
  - intros init2 grad_req2. apply Hagain. exact Hc.
  - intros shape2 init2 grad_req2 Hcomp. apply Hagain.
    unfold ParameterDict.compatible.
    destruct (Param.shape p) as [s|], shape2 as [s2|]; try reflexivity.
    apply bool_decide_eq_true.
    destruct Hcomp as [|[|]]; congruence.
  - intros s s2 init2 grad_req2 Hs Hne. unfold ParameterDict.get.
    rewrite Hl. run_store. rewrite Hp, Hs. simpl.
    rewrite bool_decide_eq_false_2 by congruence. reflexivity.
Qed.

Lemma get_idempotent_witness :
  let pd := ParameterDict.new "block1_" in
  exists l pd' st',
    ParameterDict.get pd "exciting_parameter_yay" (Some [5; 5]) None true []
      = (Ok (l, pd'), st') /\
    ParameterDict.get pd' "exciting_parameter_yay" (Some [5; 5]) None true st'
      = (Ok (l, pd'), st') /\
    ParameterDict.get pd' "exciting_parameter_yay" (Some [3; 3]) None true st'
      = (Err ShapeMismatchError, st').
Proof.
  intros pd.
  exists 0, (ParameterDict.mk "block1_" [("exciting_parameter_yay", 0)]),
    [Param.construct "block1_exciting_parameter_yay" (Some [5; 5]) true None].
  assert (E : ParameterDict.get pd "exciting_parameter_yay" (Some [5; 5])
                None true []
              = (Ok (0, ParameterDict.mk "block1_"
                          [("exciting_parameter_yay", 0)]),
                 [Param.construct "block1_exciting_parameter_yay"
                    (Some [5; 5]) true None])) by reflexivity.
  destruct (get_idempotent _ _ _ _ _ _ _ _ _ E) as (p & Hp & H1 & _ & H3).
  split; [exact E|]. split; [apply H1|].
  apply (H3 [5; 5]); [|discriminate].
  injection Hp as <-. reflexivity.
Defined.

Lemma names_kept_refl (st : store) : names_kept st st.
Proof. intros l p H. eauto. Qed.

Lemma names_kept_app (st : store) (ps : list Param.t) :
  names_kept st (st ++ ps).
Proof.
  intros l p H. exists p. split; [|reflexivity].
  apply lookup_app_l_Some. exact H.
Qed.

Lemma get_names_kept (self : ParameterDict.t) (local_name : string)
    (shape : option (list nat)) (init : option Initializer) (grad_req : bool)
    (st : store) r (st' : store) :
  ParameterDict.get self local_name shape init grad_req st = (r, st') ->
  names_kept st st'.
Proof.
  unfold ParameterDict.get.
  destruct (ParameterDict.lookup local_name (ParameterDict._params self))
    as [l|].
  - run_store. destruct (st !! l) as [p|].
    + destruct (ParameterDict.compatible (Param.shape p) shape);
        intros [= _ <-]; apply names_kept_refl.
    + intros [= _ <-]. apply names_kept_refl.
  - run_store. simpl. intros [= _ <-].
    apply names_kept_app.
Qed.

Lemma initialize_at_names_kept (f : Initializer) (ctxs : list Context)
    (force : bool) (l : loc) (st : store) r (st' : store) :
  initialize_at f ctxs force l st = (r, st') -> names_kept st st'.
Proof.
  run_store.
  destruct (st !! l) as [p|] eqn:Hp.
  - destruct (Param.initialize f ctxs force p) as [p'|e] eqn:Hi.
    + intros [= _ <-]. intros l0 p0 H0.
      apply initialize_inv in Hi as (Hn & _).
      destruct (decide (l = l0)) as [<-|Hne].
      * exists p'. split; [|congruence].
        apply list_lookup_insert_eq. eapply lookup_lt_Some. exact Hp.
      * exists p0. split; [|reflexivity].
        rewrite list_lookup_insert_ne by exact Hne. exact H0.
    + intros [= _ <-]. apply names_kept_refl.
  - intros [= _ <-]. apply names_kept_refl.
Qed.

Lemma registry_inv_names_kept (self : ParameterDict.t) (st st' : store) :
  registry_inv self st -> names_kept st st' -> registry_inv self st'.
Proof.
  intros [Hnd Hnames] Hkept. split; [exact Hnd|].
  intros n l Hin. destruct (Hnames n l Hin) as (p & Hp & Hname).
  destruct (Hkept l p Hp) as (p' & Hp' & Hname'). exists p'.
  split; [exact Hp' | congruence].
Qed.

(** C5: in every state a registry can reach, the name of each handle
    registered under a local name is the prefix of the registry followed by
    that local name, and no local name is registered twice. *)
Theorem registry_names (self : ParameterDict.t) (st : store) :
  reachable self st ->
  NoDup (map fst (ParameterDict._params self)) /\
  forall n l, (n, l) ∈ ParameterDict._params self ->
    exists p, st !! l = Some p /\
              Param.name p = ParameterDict.prefix self +:+ n.
Proof.
  intros H. change (registry_inv self st).
  induction H as [prefix st
                 |self st local_name shape init grad_req l self' st' _ IH Hget
                 |self st other local_name shape init grad_req r st' _ IH Hget
                 |self st f ctxs force l r st' _ IH Hinit].
  - split; [apply NoDup_nil_2|]. intros n l Hin. simpl in Hin.
    apply elem_of_nil in Hin. contradiction.
  - apply get_cases in Hget as [(_ & -> & -> & _)|(Hl & -> & -> & ->)];
      [exact IH|].
    destruct IH as [Hnd Hnames]. split; simpl.
    + rewrite map_app. simpl. apply NoDup_app. split; [exact Hnd|].
      split; [|apply NoDup_singleton].
      intros k Hk Hk'. apply list_elem_of_singleton in Hk' as ->.
      apply lookup_None_keys in Hl. contradiction.
    + intros n l Hin. apply elem_of_app in Hin as [Hin|Hin].
      * destruct (Hnames n l Hin) as (p & Hp & Hname). exists p.
        split; [apply lookup_app_l_Some; exact Hp | exact Hname].
      * apply list_elem_of_singleton in Hin as [= -> ->].
        eexists. split; [apply list_lookup_middle; reflexivity|].
        reflexivity.
  - eapply registry_inv_names_kept; [exact IH|].
    eapply get_names_kept. exact Hget.
  - eapply registry_inv_names_kept; [exact IH|].
    eapply initialize_at_names_kept. exact Hinit.
Qed.

Lemma registry_names_witness :
  exists p,
    [Param.construct "block1_exciting_parameter_yay" (Some [5; 5]) true None]
      !! 0 = Some p /\
    Param.name p = "block1_exciting_parameter_yay".
Proof.
  destruct (registry_names
              (ParameterDict.mk "block1_" [("exciting_parameter_yay", 0)])
              [Param.construct "block1_exciting_parameter_yay" (Some [5; 5])
                 true None]) as [_ H].
  - apply (reach_get (ParameterDict.new "block1_") []
             "exciting_parameter_yay" (Some [5; 5]) None true 0).
    + apply reach_new.
    + reflexivity.
  - apply (H "exciting_parameter_yay" 0). simpl. left.
Defined.

(** ** Collecting parameters *)

Lemma merge_disjoint (acc other : list (string * loc)) :
  NoDup (map fst other) ->
  (forall k, k ∈ map fst other -> k ∉ map fst acc) ->
  ParameterDict.merge acc other = Ok (acc ++ other).
Proof.
  revert acc. induction other as [|[k l] rest IH]; intros acc Hnd Hdis; simpl.
  - rewrite app_nil_r. reflexivity.
  - simpl in Hnd. apply NoDup_cons in Hnd as [Hk Hnd].
    assert (ParameterDict.lookup k acc = None) as ->.
    { apply lookup_None_keys. apply Hdis. simpl. left. }
    rewrite IH.
    + rewrite <- app_assoc. reflexivity.
    + exact Hnd.
    + intros k' Hk'. rewrite map_app. simpl. rewrite elem_of_app.
      intros [Hin|Hin].
      * apply (Hdis k'); [simpl; right; exact Hk' | exact Hin].
      * apply list_elem_of_singleton in Hin as ->. contradiction.
Qed.

Lemma merge_collision (acc other : list (string * loc)) (k : string) :
  k ∈ map fst acc -> k ∈ map fst other ->
  ParameterDict.merge acc other = Err NameCollisionError.
Proof.
  revert acc. induction other as [|[k' l] rest IH]; intros acc Hacc Hother;
    simpl in *.
  - apply elem_of_nil in Hother. contradiction.
  - destruct (ParameterDict.lookup k' acc) as [l'|] eqn:Hl; [reflexivity|].
    apply lookup_None_keys in Hl.
    apply elem_of_cons in Hother as [->|Hother]; [contradiction|].
    apply IH; [|exact Hother].
    rewrite map_app, elem_of_app. left. exact Hacc.
Qed.

Lemma append_inj_r (p a b : string) : p +:+ a = p +:+ b -> a = b.
Proof. induction p as [|c p IH]; simpl; [auto|]. intros [= H]. auto. Qed.

Lemma keys_NoDup (self : ParameterDict.t) :
  NoDup (map fst (ParameterDict._params self)) ->
  NoDup (ParameterDict.keys self).
Proof.
  unfold ParameterDict.keys, ParameterDict.items. rewrite map_map. simpl.
  generalize (ParameterDict._params self) as entries.
  induction entries as [|[n l] rest IH]; simpl; intros Hnd.
  - apply NoDup_nil_2.
  - apply NoDup_cons in Hnd as [Hn Hnd]. apply NoDup_cons. split; [|auto].
    intros Hin. apply Hn. apply list_elem_of_fmap in Hin as ([n' l'] & Heq & Hin).
    simpl in Heq. apply append_inj_r in Heq as ->.
    apply list_elem_of_fmap. exists (n', l'). auto.
Qed.

Lemma collect_params_leaf (b : Block) :
  children b = [] -> collect_params b = Ok (ParameterDict.items (params b)).
Proof. destruct b; simpl; intros H; [reflexivity..|]. rewrite H. reflexivity. Qed.

(** C6: a root [Sequential] with two children that have no children of
    their own.  When the fully-qualified names of the two children are
    disjoint, [collect_params] yields exactly the entries of the first child
    followed by those of the second, and no name occurs twice; when a
    fully-qualified name is defined by both children (in particular when
    they share their prefix and a local name), it fails with
    [NameCollisionError]. *)
Theorem collect_params_two_children (prefix : string) (c1 c2 : Block) :
  children c1 = [] -> children c2 = [] ->
  NoDup (map fst (ParameterDict._params (params c1))) ->
  NoDup (map fst (ParameterDict._params (params c2))) ->
  let root := add (add (Sequential_new prefix) c1) c2 in
  let k1 := ParameterDict.keys (params c1) in
  let k2 := ParameterDict.keys (params c2) in
  ((forall k, k ∈ k1 -> k ∉ k2) ->
   exists entries, collect_params root = Ok entries /\
     entries = ParameterDict.items (params c1)
               ++ ParameterDict.items (params c2) /\
     map fst entries = k1 ++ k2 /\ NoDup (map fst entries)) /\
  ((exists k, k ∈ k1 /\ k ∈ k2) ->
   collect_params root = Err NameCollisionError) /\
  (forall n l1 l2,
     ParameterDict.prefix (params c1) = ParameterDict.prefix (params c2) ->
     (n, l1) ∈ ParameterDict._params (params c1) ->
     (n, l2) ∈ ParameterDict._params (params c2) ->
     collect_params root = Err NameCollisionError).
Proof.
  intros Hleaf1 Hleaf2 Hnd1 Hnd2 root k1 k2.
  apply keys_NoDup in Hnd1, Hnd2.
  assert (Hroot : collect_params root =
    ParameterDict.merge (ParameterDict.items (params c1))
      (ParameterDict.items (params c2))).
  { unfold root. simpl.
    rewrite (collect_params_leaf c1 Hleaf1), (collect_params_leaf c2 Hleaf2).
    simpl. rewrite merge_disjoint.
    - reflexivity.
    - exact Hnd1.
    - intros k _. apply not_elem_of_nil. }
  assert (Hcoll : (exists k, k ∈ k1 /\ k ∈ k2) ->
                  collect_params root = Err NameCollisionError).
  { intros (k & Hk1 & Hk2). rewrite Hroot.
    apply (merge_collision _ _ k); assumption. }
  split; [|split].
  - intros Hdis. rewrite Hroot. eexists. split.
    + apply merge_disjoint; [exact Hnd2|].
      intros k Hk2 Hk1. apply (Hdis k Hk1 Hk2).
    + split; [reflexivity|]. rewrite map_app. split; [reflexivity|].
      apply NoDup_app. split; [exact Hnd1|]. split; [|exact Hnd2].
      exact Hdis.
  - exact Hcoll.
  - intros n l1 l2 Hp H1 H2. apply Hcoll.
    exists (ParameterDict.prefix (params c1) +:+ n). split.
    + unfold k1, ParameterDict.keys, ParameterDict.items. rewrite map_map.
      apply list_elem_of_fmap. exists (n, l1). auto.
    + unfold k2, ParameterDict.keys, ParameterDict.items. rewrite map_map.
      apply list_elem_of_fmap. exists (n, l2). rewrite Hp. auto.
Qed.

Lemma collect_params_two_children_witness :
  collect_params (add (add (Sequential_new "sequential1_") (MyDense_ layer0))
                      (MyDense_ layer1))
  = Ok [("sequential1_mydense0_weight", 0); ("sequential1_mydense0_bias", 1);
        ("sequential1_mydense1_weight", 2); ("sequential1_mydense1_bias", 3)]
  /\
  collect_params (add (add (Sequential_new "sequential1_") (MyDense_ layer0))
                      (MyDense_ layer0))
  = Err NameCollisionError.
Proof.
  assert (Hnd : forall a b : string, a <> b -> NoDup [a; b]).
  { intros a b Hab. apply NoDup_cons. split.
    - intros Hin. apply list_elem_of_singleton in Hin. contradiction.
    - apply NoDup_singleton. }
  split.
  - destruct (collect_params_two_children "sequential1_" (MyDense_ layer0)
                (MyDense_ layer1) eq_refl eq_refl)
      as [Hunion _]; [apply Hnd; discriminate | apply Hnd; discriminate |].
    destruct Hunion as (entries & Hrun & -> & _).
    + intros k H1 H2. simpl in H1, H2.
      repeat (apply elem_of_cons in H1 as [->|H1];
              [repeat (apply elem_of_cons in H2 as [H2|H2];
                       [discriminate|]);
               apply elem_of_nil in H2; contradiction|]).
      apply elem_of_nil in H1. contradiction.
    + exact Hrun.
  - destruct (collect_params_two_children "sequential1_" (MyDense_ layer0)
                (MyDense_ layer0) eq_refl eq_refl)
      as (_ & _ & Hsame); [apply Hnd; discriminate | apply Hnd; discriminate |].
    apply (Hsame "weight" 0 0); [reflexivity | left | left].
Defined.

(** ** Initializing the parameters of a block *)

Lemma bind_run {A B} (m : M A) (f : A -> M B) (st st' : store) (a : A) :
  m st = (Ok a, st') -> (m ≫= f) st = f a st'.
Proof. intros H. unfold mbind, M_bind. rewrite H. reflexivity. Qed.

Lemma grows_refl (st : store) : grows st st.
Proof. intros l p H. exists p. auto. Qed.

Lemma grows_trans (st1 st2 st3 : store) :
  grows st1 st2 -> grows st2 st3 -> grows st1 st3.
Proof.
  intros H12 H23 l p H.
  destruct (H12 l p H) as (p2 & Hp2 & Hs2 & Hn2 & Hd2).
  destruct (H23 l p2 Hp2) as (p3 & Hp3 & Hs3 & Hn3 & Hd3).
  exists p3. split; [exact Hp3|]. split; [congruence|].
  split; [congruence | auto].
Qed.

Lemma initialize_at_known (f : Initializer) (ctxs : list Context)
    (force : bool) (l : loc) (st : store) (p : Param.t) (s : list nat) :
  st !! l = Some p ->
  Param.shape_known (Param.shape p) = Some s ->
  exists p', Param.initialize f ctxs force p = Ok p' /\
    initialize_at f ctxs force l st = (Ok tt, <[l := p']> st).
Proof.
  intros Hp Hs.
  destruct (initialize_known f force ctxs p s Hs) as (p' & Hp').
  exists p'. split; [exact Hp'|].
  run_store.
  rewrite Hp, Hp'. reflexivity.
Qed.

Lemma initialize_entries_ok (entries : list (string * loc)) (f : Initializer)
    (ctxs : list Context) (st : store) :
  store_ok st ->
  (forall k l, (k, l) ∈ entries ->
     exists p s, st !! l = Some p /\
                 Param.shape_known (Param.shape p) = Some s) ->
  exists st', ParameterDict.initialize entries f ctxs false st = (Ok tt, st')
    /\ store_ok st' /\ grows st st' /\
    forall k l c, (k, l) ∈ entries -> c ∈ ctxs ->
      exists p', st' !! l = Some p' /\ is_Some (Param._data p' !! c).
Proof.
  revert st. induction entries as [|[k0 l0] rest IH]; intros st Hok Hknown.
  - exists st. split; [reflexivity|]. split; [exact Hok|].
    split; [apply grows_refl|]. intros k l c Hin.
    apply elem_of_nil in Hin. contradiction.
  - destruct (Hknown k0 l0) as (p & s & Hp & Hs); [left|].
    destruct (initialize_at_known f ctxs false l0 st p s Hp Hs)
      as (p' & Hinit & Hrun).
    apply initialize_inv in Hinit as (Hn & Hsh & Hsok & Hdom).
    pose proof (lookup_lt_Some _ _ _ Hp) as Hlt.
    assert (Hok1 : store_ok (<[l0 := p']> st)).
    { intros l q Hq. destruct (decide (l0 = l)) as [<-|Hne].
      - rewrite list_lookup_insert_eq in Hq by exact Hlt.
        injection Hq as <-. apply Hsok. apply (Hok _ _ Hp).
      - rewrite list_lookup_insert_ne in Hq by exact Hne.
        apply (Hok _ _ Hq). }
    assert (Hgrow1 : grows st (<[l0 := p']> st)).
    { intros l q Hq. destruct (decide (l0 = l)) as [<-|Hne].
      - exists p'. rewrite list_lookup_insert_eq by exact Hlt.
        assert (q = p) as -> by congruence.
        split; [reflexivity|]. split; [exact Hsh|]. split; [exact Hn|].
        intros c Hc. apply Hdom. left. exact Hc.
      - exists q. rewrite list_lookup_insert_ne by exact Hne.
        split; [exact Hq|]. auto. }
    destruct (IH (<[l0 := p']> st) Hok1) as (st' & Hrest & Hok' & Hgrow' & Hall).
    { intros k l Hin. destruct (Hknown k l) as (q & t & Hq & Ht); [right; exact Hin|].
      destruct (Hgrow1 l q Hq) as (q' & Hq' & Hsq & _).
      exists q', t. split; [exact Hq'|]. rewrite Hsq. exact Ht. }
    exists st'. split.
    { cbn [ParameterDict.initialize]. rewrite (bind_run _ _ _ _ _ Hrun).
      exact Hrest. }
    split; [exact Hok'|]. split; [eapply grows_trans; eassumption|].
    intros k l c Hin Hc. apply elem_of_cons in Hin as [[= -> ->]|Hin].
    + destruct (Hgrow' l0 p') as (p'' & Hp'' & _ & _ & Hd'').
      { apply list_lookup_insert_eq. exact Hlt. }
      exists p''. split; [exact Hp''|]. apply Hd''. apply Hdom. right.
      exact Hc.
    + apply (Hall k l c Hin Hc).
Qed.

Lemma ready_of (st : store) (l : loc) (c : Context) (p : Param.t)
    (s : list nat) :
  st !! l = Some p -> storage_ok p -> Param.shape p = Some s ->
  is_Some (Param._data p !! c) -> ready st l c s.
Proof. intros Hp Hok Hs Hd. exists p. auto. Qed.

Lemma ready_data (st : store) (l : loc) (c : Context) (s : list nat) :
  ready st l c s ->
  exists a, data_at st l c = Ok a /\ nd.shape a = s /\
            length (nd.data a) = size s.
Proof.
  intros (p & Hp & Hs & Hok & [a Ha]). exists a. unfold data_at, Param.data.
  rewrite Hp, Ha. split; [reflexivity|].
  destruct (Hok _ _ Ha) as (Hs' & (_ & _ & Hlen) & _).
  assert (nd.shape a = s) as <- by congruence. auto.
Qed.

Lemma initialize_all_ready (b : Block) (entries : list (string * loc))
    (f : Initializer) (ctxs : list Context) (st : store) :
  collect_params b = Ok entries ->
  store_ok st ->
  (forall k l, (k, l) ∈ entries ->
     exists p s, st !! l = Some p /\
                 Param.shape_known (Param.shape p) = Some s) ->
  exists st', initialize_all b f ctxs st = (Ok tt, st') /\
    forall k l c p s, (k, l) ∈ entries -> c ∈ ctxs ->
      st !! l = Some p -> Param.shape p = Some s -> ready st' l c s.
Proof.
  intros Hcollect Hok Hknown.
  destruct (initialize_entries_ok entries f ctxs st Hok Hknown)
    as (st' & Hrun & Hok' & Hgrow & Hall).
  exists st'. split.
  - unfold initialize_all, mbind, M_bind, lift. rewrite Hcollect. exact Hrun.
  - intros k l c p s Hin Hc Hp Hs.
    destruct (Hall k l c Hin Hc) as (p' & Hp' & Hd).
    destruct (Hgrow l p Hp) as (p'' & Hp'' & Hs'' & _).
    assert (p'' = p') as -> by congruence.
    apply (ready_of st' l c p' s Hp' (Hok' _ _ Hp')); [congruence | exact Hd].
Qed.

Lemma MyDense_init_run (Xavier : Qc -> Initializer) (prefix : string)
    (units in_units : nat) (st : store) :
  MyDense.__init__ Xavier prefix units in_units st =
  (Ok (MyDense.mk
         (ParameterDict.mk prefix
            [("weight", length st); ("bias", S (length st))])
         units in_units (length st) (S (length st))),
   st ++ [Param.construct (prefix +:+ "weight") (Some [in_units; units]) true
            (Some (Xavier (Q2Qc (224 # 100))));
          Param.construct (prefix +:+ "bias") (Some [units]) true None]).
Proof.
  unfold MyDense.__init__, ParameterDict.get, mbind, M_bind, alloc. simpl.
  rewrite length_app. simpl. rewrite Nat.add_1_r, <- app_assoc. reflexivity.
Qed.

Lemma MyDense_forward_ready (st : store) (self : MyDense.t) (x : NDArray)
    (lead : list nat) (in_units : nat) :
  ready st (MyDense.weight self) (nd.context x)
    [in_units; MyDense.units self] ->
  ready st (MyDense.bias self) (nd.context x) [MyDense.units self] ->
  nd.shape x = lead ++ [in_units] ->
  length (nd.data x) = size lead * in_units ->
  exists y, MyDense.forward st self x = Ok y /\
    nd.context y = nd.context x /\
    nd.shape y = lead ++ [MyDense.units self] /\
    length (nd.data y) = size lead * MyDense.units self /\
    Forall (fun v => 0 <= v)%Qc (nd.data y).
Proof.
  intros Hrw Hrb Hsx Hlx.
  apply ready_data in Hrw as (w & Hw & Hsw & _).
  apply ready_data in Hrb as (b & Hb & Hsb & Hlb).
  simpl in Hlb. rewrite Nat.mul_1_r in Hlb.
  destruct (MyDense_forward_affine st self x w b lead in_units
              Hw Hb Hsw Hsb Hlb Hsx Hlx) as (y & Hy & Hc & Hs & Hl & Hpos & _).
  exists y. auto.
Qed.

Lemma store_ok_nil : store_ok [].
Proof. intros l p H. rewrite lookup_nil in H. discriminate. Qed.

Lemma store_ok_construct (st : store) name shape grad_req init :
  store_ok st -> store_ok (st ++ [Param.construct name shape grad_req init]).
Proof.
  intros Hok l p H. apply lookup_app_Some in H as [H|[_ H]].
  - apply (Hok _ _ H).
  - apply list_lookup_singleton_Some in H as [_ <-].
    apply construct_storage_ok.
Qed.

Lemma MyDense_init_store_ok (Xavier : Qc -> Initializer) (prefix : string)
    (units in_units : nat) (st : store) :
  store_ok st ->
  store_ok (MyDense.__init__ Xavier prefix units in_units st).2.
Proof.
  intros Hok. rewrite MyDense_init_run. simpl.
  change (st ++ [?a; ?b]) with (st ++ [a] ++ [b]). rewrite app_assoc.
  apply store_ok_construct, store_ok_construct, Hok.
Qed.

(** ** Shapes that are never inferred *)

Lemma get_unallocated (self : ParameterDict.t) (local_name : string)
    (shape : option (list nat)) (init : option Initializer) (grad_req : bool)
    (st : store) r (st' : store) (l : loc) (s : list nat) :
  ParameterDict.get self local_name shape init grad_req st = (r, st') ->
  unallocated st l s -> unallocated st' l s.
Proof.
  intros Hget (p & Hp & Hs & Hd). exists p. split; [|auto].
  revert Hget. unfold ParameterDict.get.
  destruct (ParameterDict.lookup local_name (ParameterDict._params self))
    as [l0|].
  - run_store. destruct (st !! l0) as [q|].
    + destruct (ParameterDict.compatible (Param.shape q) shape);
        intros [= _ <-]; exact Hp.
    + intros [= _ <-]. exact Hp.
  - run_store. simpl. intros [= _ <-].
    apply lookup_app_l_Some. exact Hp.
Qed.

Lemma initialize_unallocated (f : Initializer) (ctxs : list Context)
    (force : bool) (p : Param.t) :
  Param.shape_known (Param.shape p) = None -> Param._data p = ∅ ->
  Param.initialize f ctxs force p =
  match ctxs with [] => Ok p | _ :: _ => Err ShapeUndefinedError end.
Proof.
  intros Hs Hd. destruct ctxs as [|c cs]; [reflexivity|]. simpl.
  rewrite initialize_ctx_unknown; [reflexivity | exact Hs |].
  rewrite Hd. apply lookup_empty.
Qed.

Lemma initialize_at_unallocated (f : Initializer) (ctxs : list Context)
    (force : bool) (l0 : loc) (st : store) r (st' : store) (l : loc)
    (s : list nat) :
  Param.shape_known (Some s) = None ->
  initialize_at f ctxs force l0 st = (r, st') ->
  unallocated st l s -> unallocated st' l s.
Proof.
  intros Hunk Hinit (p & Hp & Hs & Hd).
  revert Hinit. run_store.
  destruct (st !! l0) as [q|] eqn:Hq; [|intros [= _ <-]; exists p; auto].
  destruct (decide (l0 = l)) as [->|Hne].
  - assert (q = p) as -> by congruence.
    rewrite initialize_unallocated by (rewrite ?Hs; assumption).
    destruct ctxs; intros [= _ <-]; exists p; [|auto].
    split; [|auto]. apply list_lookup_insert_eq.
    eapply lookup_lt_Some. exact Hp.
  - destruct (Param.initialize f ctxs force q) as [q'|e];
      intros [= _ <-]; exists p; [|auto].
    split; [|auto]. rewrite list_lookup_insert_ne by exact Hne. exact Hp.
Qed.

Lemma evolves_unallocated (st st' : store) (l : loc) (s : list nat) :
  Param.shape_known (Some s) = None ->
  evolves st st' -> unallocated st l s -> unallocated st' l s.
Proof.
  intros Hunk Hev. induction Hev as [st
    |st self local_name shape init grad_req r st' st'' Hget _ IH
    |st f ctxs force l0 r st' st'' Hinit _ IH]; intros Hun.
  - exact Hun.
  - apply IH. eapply get_unallocated; eassumption.
  - apply IH. eapply initialize_at_unallocated; eassumption.
Qed.

Lemma MyDense_forward_unallocated (st : store) (self : MyDense.t)
    (x : NDArray) (s : list nat) :
  unallocated st (MyDense.weight self) s ->
  MyDense.forward st self x = Err UninitializedError.
Proof.
  intros (p & Hp & _ & Hd). unfold MyDense.forward, data_at, Param.data.
  rewrite Hp, Hd, lookup_empty. reflexivity.
Qed.

Lemma MyDense_forward_mismatch (st : store) (self : MyDense.t) (x : NDArray)
    (k in_units units : nat) :
  ready st (MyDense.weight self) (nd.context x) [in_units; units] ->
  last (nd.shape x) = Some k -> k <> in_units ->
  MyDense.forward st self x = Err ShapeMismatchError.
Proof.
  intros Hr Hk Hne. apply ready_data in Hr as (w & Hw & Hsw & _).
  unfold MyDense.forward. rewrite Hw. simpl. unfold nd.dot.
  rewrite Hk, Hsw. rewrite decide_False by exact Hne. reflexivity.
Qed.

Lemma MyDense_init_inv (Xavier : Qc -> Initializer) (prefix : string)
    (units in_units : nat) (st0 : store) (self : MyDense.t) (st : store) :
  MyDense.__init__ Xavier prefix units in_units st0 = (Ok self, st) ->
  MyDense.weight self = length st0 /\ MyDense.bias self = S (length st0) /\
  MyDense.units self = units /\
  collect_params (MyDense_ self) =
    Ok [(prefix +:+ "weight", length st0); (prefix +:+ "bias", S (length st0))]
  /\
  st !! length st0 =
    Some (Param.construct (prefix +:+ "weight") (Some [in_units; units]) true
            (Some (Xavier (Q2Qc (224 # 100))))) /\
  st !! S (length st0) =
    Some (Param.construct (prefix +:+ "bias") (Some [units]) true None).
Proof.
  rewrite MyDense_init_run. intros [= <- <-]. simpl.
  repeat split.
  - apply list_lookup_middle. reflexivity.
  - rewrite lookup_app_r by lia.
    replace (S (length st0) - length st0) with 1 by lia. reflexivity.
Qed.

(** C4, as the code has it: [forward] only reads the store, so it infers no
    shape.  For a [MyDense] constructed with [in_units = 0], however the
    store changes afterwards, the weight handle keeps its declared shape
    (0, units) and owns no storage, initializing the block fails with
    [ShapeUndefinedError], and every [forward] call, whatever the shape of
    its input, fails with [UninitializedError].  A [MyDense] constructed with
    positive [units] and [in_units] and initialized on a context fails with
    [ShapeMismatchError] on every input of that context whose trailing
    dimension differs from [in_units]. *)
Theorem MyDense_no_shape_inference :
  (forall (Xavier : Qc -> Initializer) (prefix : string) (units : nat)
          (st0 : store) (self : MyDense.t) (st st' : store),
     MyDense.__init__ Xavier prefix units 0 st0 = (Ok self, st) ->
     evolves st st' ->
     unallocated st' (MyDense.weight self) [0; units] /\
     (forall f c cs,
        initialize_all (MyDense_ self) f (c :: cs) st'
        = (Err ShapeUndefinedError, st')) /\
     (forall x, MyDense.forward st' self x = Err UninitializedError)) /\
  (forall (Xavier : Qc -> Initializer) (f : Initializer) (c : Context)
          (prefix : string) (units in_units : nat) (st0 : store)
          (self : MyDense.t) (st : store),
     store_ok st0 -> 0 < units -> 0 < in_units ->
     MyDense.__init__ Xavier prefix units in_units st0 = (Ok self, st) ->
     exists st', initialize_all (MyDense_ self) f [c] st = (Ok tt, st') /\
       forall x k, nd.context x = c -> last (nd.shape x) = Some k ->
         k <> in_units ->
         MyDense.forward st' self x = Err ShapeMismatchError).
Proof.
  split.
  - intros Xavier prefix units st0 self st st' Hinit Hev.
    apply MyDense_init_inv in Hinit as (Hw & Hb & Hu & Hcollect & Hpw & Hpb).
    assert (Hun : unallocated st' (MyDense.weight self) [0; units]).
    { apply (evolves_unallocated st); [reflexivity | exact Hev |].
      rewrite Hw. eexists. split; [exact Hpw|]. split; reflexivity. }
    split; [exact Hun|]. split.
    + intros f c cs. destruct Hun as (p & Hp & Hs & Hd).
      unfold initialize_all, mbind, M_bind, lift. rewrite Hcollect.
      cbn [ParameterDict.initialize].
      run_store.
      rewrite <- Hw, Hp.
      rewrite initialize_unallocated by (rewrite ?Hs; auto). reflexivity.
    + intros x. eapply MyDense_forward_unallocated. exact Hun.
  - intros Xavier f c prefix units in_units st0 self st Hok Hu Hi Hinit.
    pose proof (MyDense_init_store_ok Xavier prefix units in_units st0 Hok)
      as Hok'. rewrite Hinit in Hok'. simpl in Hok'.
    apply MyDense_init_inv in Hinit as (Hw & Hb & _ & Hcollect & Hpw & Hpb).
    destruct (initialize_all_ready (MyDense_ self) _ f [c] st Hcollect Hok')
      as (st' & Hrun & Hready).
    { intros k l Hin.
      apply elem_of_cons in Hin as [[= _ ->]|Hin];
        [|apply list_elem_of_singleton in Hin as [= _ ->]].
      - eexists _, _. split; [exact Hpw|].
        destruct in_units, units; try lia. reflexivity.
      - eexists _, _. split; [exact Hpb|].
        destruct units; try lia. reflexivity. }
    exists st'. split; [exact Hrun|].
    intros x k <- Hk Hne.
    apply (MyDense_forward_mismatch st' self x k in_units units);
      [|exact Hk | exact Hne].
    rewrite Hw. eapply Hready; [left | left | exact Hpw | reflexivity].
Qed.

Lemma MyDense_no_shape_inference_witness :
  let st :=
    [Param.construct "mydense0_weight" (Some [0; 20]) true (Some ramp);
     Param.construct "mydense0_bias" (Some [20]) true None] in
  let self :=
    MyDense.mk (ParameterDict.mk "mydense0_" [("weight", 0); ("bias", 1)])
      20 0 0 1 in
  MyDense.__init__ (fun _ => ramp) "mydense0_" 20 0 [] = (Ok self, st) /\
  MyDense.forward st self (nd.ones ctx [2; 784]) = Err UninitializedError /\
  MyDense.forward st self (nd.ones ctx [2; 10]) = Err UninitializedError.
Proof.
  intros st self.
  destruct MyDense_no_shape_inference as [H _].
  destruct (H (fun _ => ramp) "mydense0_" 20 [] self st st eq_refl
              (evolves_refl st)) as (_ & _ & Hfwd).
  split; [reflexivity|]. split; apply Hfwd.
Defined.

(** C4 as stated fails on [MyDense(20)] (in_units left at 0): initializing
    fails, the first forward call on a (2, 784) input fails and leaves the
    declared shape at (0, 20), and the forward call on a (2, 10) input fails
    with [UninitializedError], not with [ShapeMismatchError]. *)
Lemma lazy_inference_counterexample :
  let '(dense0, r, st) := lazy_example (fun _ => ramp) ramp in
  r = Err ShapeUndefinedError /\
  MyDense.forward st dense0 (nd.ones ctx [2; 784]) = Err UninitializedError /\
  Param.shape <$> st !! MyDense.weight dense0 = Some (Some [0; 20]) /\
  MyDense.forward st dense0 (nd.ones ctx [2; 10]) = Err UninitializedError /\
  MyDense.forward st dense0 (nd.ones ctx [2; 10]) <> Err ShapeMismatchError.
Proof. vm_compute. repeat split; discriminate. Qed.

(** ** The end-to-end examples *)

Lemma net_forward_shape (st : store) (x : NDArray) (N : nat) :
  ready st 0 ctx [784; 128] -> ready st 1 ctx [128] ->
  ready st 2 ctx [128; 64] -> ready st 3 ctx [64] ->
  ready st 4 ctx [64; 10] -> ready st 5 ctx [10] ->
  nd.context x = ctx -> nd.shape x = [N; 784] ->
  length (nd.data x) = N * 784 ->
  exists y, forward st net x = Ok y /\ nd.shape y = [N; 10] /\
            Forall (fun v => 0 <= v)%Qc (nd.data y).
Proof.
  intros H0 H1 H2 H3 H4 H5 Hc Hs Hl.
  assert (Hsize : size [N] = N) by (unfold size; simpl; lia).
  unfold net. cbn [forward foldl mbind result_bind].
  destruct (MyDense_forward_ready st layer0 x [N] 784) as (y1 & Hy1 & Hc1 & Hs1 & Hl1 & _);
    [rewrite Hc; exact H0 | rewrite Hc; exact H1 | exact Hs
    | rewrite Hsize; exact Hl |].
  rewrite Hy1. cbn [mbind result_bind]. cbn [MyDense.units] in Hs1, Hl1.
  destruct (MyDense_forward_ready st layer1 y1 [N] 128) as (y2 & Hy2 & Hc2 & Hs2 & Hl2 & _);
    [rewrite Hc1, Hc; exact H2 | rewrite Hc1, Hc; exact H3 | exact Hs1
    | exact Hl1 |].
  rewrite Hy2. cbn [mbind result_bind]. cbn [MyDense.units] in Hs2, Hl2.
  destruct (MyDense_forward_ready st layer2 y2 [N] 64) as (y3 & Hy3 & Hc3 & Hs3 & Hl3 & Hpos);
    [rewrite Hc2, Hc1, Hc; exact H4 | rewrite Hc2, Hc1, Hc; exact H5
    | exact Hs2 | exact Hl2 |].
  exists y3. split; [exact Hy3|]. split; [exact Hs3 | exact Hpos].
Qed.

Section Examples.

Variable Xavier : Qc -> Initializer.
Variable f : Initializer.

(** The first custom dense example: after initialization both handles have
    storage on [ctx], of the declared shapes. *)
Lemma dense_example_ready :
  exists st, dense_example Xavier f = (Ok dense, st) /\
    ready st (MyDense.weight dense) ctx [10; 20] /\
    ready st (MyDense.bias dense) ctx [20].
Proof.
  unfold dense_example.
  rewrite (bind_run _ _ _ _ _ (MyDense_init_run Xavier "mydense0_" 20 10 [])).
  pose proof (MyDense_init_store_ok Xavier "mydense0_" 20 10 [] store_ok_nil)
    as Hok.
  rewrite MyDense_init_run in Hok. simpl in Hok |- *. fold dense.
  destruct (initialize_all_ready (MyDense_ dense) _ f [ctx] _ eq_refl Hok)
    as (st & Hrun & Hready).
  { intros k l Hin. simpl in Hin.
    apply elem_of_cons in Hin as [[= _ ->]|Hin];
      [|apply list_elem_of_singleton in Hin as [= _ ->]];
      eexists _, _; (split; [reflexivity|]); reflexivity. }
  exists st. rewrite (bind_run _ _ _ _ _ Hrun). split; [reflexivity|].
  split.
  - eapply (Hready _ 0 ctx); [left | left | reflexivity | reflexivity].
  - eapply (Hready _ 1 ctx); [right; left | left | reflexivity | reflexivity].
Qed.

(** The three-layer network: after initialization the six handles have
    storage on [ctx], of the declared shapes. *)
Lemma net_example_ready :
  exists st, net_example Xavier f = (Ok net, st) /\
    ready st 0 ctx [784; 128] /\ ready st 1 ctx [128] /\
    ready st 2 ctx [128; 64] /\ ready st 3 ctx [64] /\
    ready st 4 ctx [64; 10] /\ ready st 5 ctx [10].
Proof.
  unfold net_example. cbv zeta.
  rewrite (bind_run _ _ _ _ _ (MyDense_init_run Xavier _ 128 784 [])).
  rewrite (bind_run _ _ _ _ _ (MyDense_init_run Xavier _ 64 128 _)).
  rewrite (bind_run _ _ _ _ _ (MyDense_init_run Xavier _ 10 64 _)).
  change (exists st,
    (_ ← initialize_all net f [ctx]; mret net) (net_store Xavier)
      = (Ok net, st) /\
    ready st 0 ctx [784; 128] /\ ready st 1 ctx [128] /\
    ready st 2 ctx [128; 64] /\ ready st 3 ctx [64] /\
    ready st 4 ctx [64; 10] /\ ready st 5 ctx [10]).
  assert (Hok : store_ok (net_store Xavier)).
  { intros l p H. destruct l as [|[|[|[|[|[|l]]]]]]; simpl in H;
      try discriminate; injection H as <-; apply construct_storage_ok. }
  destruct (initialize_all_ready net _ f [ctx] _ eq_refl Hok)
    as (st' & Hrun & Hready).
  { intros k l Hin. simpl in Hin.
    repeat (apply elem_of_cons in Hin as [[= _ ->]|Hin];
            [eexists _, _; split; reflexivity|]).
    apply elem_of_nil in Hin. contradiction. }
  exists st'. rewrite (bind_run _ _ _ _ _ Hrun). split; [reflexivity|].
  repeat split.
  - eapply (Hready _ 0 ctx); [left | left | reflexivity | reflexivity].
  - eapply (Hready _ 1 ctx);
      [right; left | left | reflexivity | reflexivity].
  - eapply (Hready _ 2 ctx);
      [do 2 right; left | left | reflexivity | reflexivity].
  - eapply (Hready _ 3 ctx);
      [do 3 right; left | left | reflexivity | reflexivity].
  - eapply (Hready _ 4 ctx);
      [do 4 right; left | left | reflexivity | reflexivity].
  - eapply (Hready _ 5 ctx);
      [do 5 right; left | left | reflexivity | reflexivity].
Qed.

(** C8, as the code has it: the first custom dense example,
    [MyDense(20, in_units=10)] initialized on [ctx], maps every batch of
    shape (2, 10) to an output of shape (2, 20) whose values are all >= 0;
    the module built from the three layers 784->128, 128->64 and 64->10,
    initialized on [ctx], maps every batch of shape (N, 784) to an output of
    shape (N, 10) whose values are all >= 0. *)
Theorem end_to_end_examples :
  (exists st, dense_example Xavier f = (Ok dense, st) /\
     forall x, nd.context x = ctx -> nd.shape x = [2; 10] ->
       length (nd.data x) = 20 ->
       exists y, forward st (MyDense_ dense) x = Ok y /\
         nd.shape y = [2; 20] /\ Forall (fun v => 0 <= v)%Qc (nd.data y)) /\
  (exists st, net_example Xavier f = (Ok net, st) /\
     forall N x, nd.context x = ctx -> nd.shape x = [N; 784] ->
       length (nd.data x) = N * 784 ->
       exists y, forward st net x = Ok y /\
         nd.shape y = [N; 10] /\ Forall (fun v => 0 <= v)%Qc (nd.data y)).
Proof.
  split.
  - destruct dense_example_ready as (st & Hrun & Hw & Hb).
    exists st. split; [exact Hrun|]. intros x Hc Hs Hl.
    destruct (MyDense_forward_ready st dense x [2] 10)
      as (y & Hy & _ & Hsy & _ & Hpos);
      [rewrite Hc; exact Hw | rewrite Hc; exact Hb | exact Hs | exact Hl |].
    exists y. split; [exact Hy|]. split; [exact Hsy | exact Hpos].
  - destruct net_example_ready
      as (st & Hrun & H0 & H1 & H2 & H3 & H4 & H5).
    exists st. split; [exact Hrun|]. intros N x Hc Hs Hl.
    apply (net_forward_shape st x N); assumption.
Qed.

End Examples.

Lemma end_to_end_examples_witness :
  exists st y,
    dense_example (fun _ => ramp) ramp = (Ok dense, st) /\
    forward st (MyDense_ dense) (nd.ones ctx [2; 10]) = Ok y /\
    nd.shape y = [2; 20] /\ Forall (fun v => 0 <= v)%Qc (nd.data y).
Proof.
  destruct (end_to_end_examples (fun _ => ramp) ramp)
    as [(st & Hrun & Hfwd) _].
  destruct (Hfwd (nd.ones ctx [2; 10]) eq_refl eq_refl eq_refl)
    as (y & Hy & Hs & Hpos).
  exists st, y. auto.
Defined.

(** C8 as stated fails: the module of the three layers, run on the dummy
    batch of shape (2, 10), produces no output at all, and on a batch of
    shape (2, 784) its output has shape (2, 10), not (2, 20). *)
Lemma three_layers_counterexample :
  exists st, net_example (fun _ => ramp) ramp = (Ok net, st) /\
    forward st net (nd.ones ctx [2; 10]) = Err ShapeMismatchError /\
    exists y, forward st net (nd.ones ctx [2; 784]) = Ok y /\
              nd.shape y = [2; 10] /\ nd.shape y <> [2; 20].
Proof.
  destruct (net_example_ready (fun _ => ramp) ramp)
    as (st & Hrun & H0 & H1 & H2 & H3 & H4 & H5).
  exists st. split; [exact Hrun|]. split.
  - unfold net. cbn [forward foldl mbind result_bind].
    rewrite (MyDense_forward_mismatch st layer0 (nd.ones ctx [2; 10]) 10 784
               128);
      [reflexivity | exact H0 | reflexivity | lia].
  - destruct (net_forward_shape st (nd.ones ctx [2; 784]) 2)
      as (y & Hy & Hs & _); try assumption; try reflexivity.
    exists y. split; [exact Hy|]. split; [exact Hs|].
    rewrite Hs. discriminate.
Qed.

(** The first custom dense example is an instance of the forward pass. *)
Lemma MyDense_forward_correct_witness :
  exists st y,
    dense_example (fun _ => ramp) ramp = (Ok dense, st) /\
    MyDense.forward st dense (nd.ones ctx [2; 10]) = Ok y /\
    nd.shape y = [2; 20] /\ length (nd.data y) = 40.
Proof.
  destruct (dense_example_ready (fun _ => ramp) ramp)
    as (st & Hrun & (pw & Hpw & Hsw & Hokw & [w Hw])
                  & (pb & Hpb & Hsb & Hokb & [b Hb])).
  destruct (MyDense_forward_correct st dense (nd.ones ctx [2; 10]) w b pw pb
              [2] 10 Hpw Hpb Hsw Hsb Hokw Hokb Hw Hb eq_refl eq_refl)
    as (y & Hy & Hs & Hl & _).
  exists st, y. auto.
Defined.

(** ** [CenteredLayer] *)





(** On the integers 1 to 5 the binary32 layer prints what the notebook
    prints, [-2. -1. 0. 1. 2.]. *)
Example centered_output_f32 :
  f32.forward (f32.mkNDArray ctx [5] (map f32.of_nat [1; 2; 3; 4; 5]))
  = Ok (f32.mkNDArray ctx [5]
          [SpecFloat.SFopp (f32.of_nat 2); SpecFloat.SFopp (f32.of_nat 1);
           f32.zero; f32.of_nat 1; f32.of_nat 2]).
Proof. vm_compute. reflexivity. Qed.


(** ** The moving loss *)

Lemma update_moving_loss_eq (i : nat) (moving_loss : Qc) (ce : NDArray) :
  update_moving_loss i moving_loss ce =
  Ok (if decide (i = 0) then mean_of ce
      else (Q2Qc (99 # 100) * moving_loss + Q2Qc (1 # 100) * mean_of ce)%Qc).
Proof.
  unfold update_moving_loss. destruct (decide (i = 0)); reflexivity.
Qed.


Lemma batch_loop_later (i : nat) (moving_loss : Qc) (later : list NDArray) :
  i <> 0 ->
  batch_loop i moving_loss later = Ok (ema moving_loss (map mean_of later)).
Proof.
  revert i moving_loss. induction later as [|c later IH]; intros i m Hi.
  - reflexivity.
  - cbn [batch_loop]. rewrite update_moving_loss_eq.
    rewrite decide_False by exact Hi. cbn [mbind result_bind].
    rewrite IH by lia. reflexivity.
Qed.

Lemma batch_loop_epoch (moving_loss : Qc) (first : NDArray)
    (later : list NDArray) :
  batch_loop 0 moving_loss (first :: later) = Ok (epoch_loss (first :: later)).
Proof.
  cbn [batch_loop]. rewrite update_moving_loss_eq. cbn [mbind result_bind].
  rewrite decide_True by reflexivity. apply batch_loop_later. lia.
Qed.



(** ** The accuracy metric *)

Lemma evaluate_loop_processed (st : store)
    (data_iterator : list (NDArray * NDArray)) (net : Block)
    (metric : Accuracy.t) :
  evaluate_loop st data_iterator net metric =
  (match (processed st data_iterator net).2 with
   | None => Ok tt
   | Some e => Err e
   end,
   Accuracy.mk
     (Accuracy.sum_metric metric
      + count_hits (processed st data_iterator net).1)
     (Accuracy.num_inst metric
      + count_inst (processed st data_iterator net).1)).
Proof.
  revert metric.
  induction data_iterator as [|[data label] rest IH]; intros metric.
  - simpl. rewrite !Nat.add_0_r. destruct metric. reflexivity.
  - cbn [processed evaluate_loop].
    destruct (data0 ← nd.reshape_rows (nd.as_in_context data ctx) 784;
              forward st net data0) as [output|e].
    + rewrite IH. destruct (processed st rest net) as [pairs e]. simpl.
      f_equal. f_equal; lia.
    + simpl. rewrite !Nat.add_0_r. destruct metric. reflexivity.
Qed.

Lemma count_hits_app (a b : list (NDArray * NDArray)) :
  count_hits (a ++ b) = count_hits a + count_hits b.
Proof.
  unfold count_hits. induction a as [|[l o] a IH]; simpl; [reflexivity|].
  rewrite IH. lia.
Qed.

Lemma count_inst_app (a b : list (NDArray * NDArray)) :
  count_inst (a ++ b) = count_inst a + count_inst b.
Proof.
  unfold count_inst. induction a as [|[l o] a IH]; simpl; [reflexivity|].
  rewrite IH. lia.
Qed.

Lemma evaluate_calls_accumulate (calls : list call)
    (seen : list (NDArray * NDArray)) :
  (evaluate_calls calls
     (Accuracy.mk (count_hits seen) (count_inst seen))).1 =
  imap (fun k c =>
          match error_of c with
          | Some e => Err e
          | None =>
              Ok (accuracy_over
                    (seen ++ concat (map pairs_of (take (S k) calls))))
          end) calls.
Proof.
  revert seen. induction calls as [|c calls IH]; intros seen; [reflexivity|].
  cbn [evaluate_calls]. unfold evaluate_accuracy.
  rewrite evaluate_loop_processed.
  cbn [Accuracy.sum_metric Accuracy.num_inst].
  rewrite <- count_hits_app, <- count_inst_app.
  fold (pairs_of c). fold (error_of c).
  specialize (IH (seen ++ pairs_of c)).
  destruct (error_of c) as [e|] eqn:He;
    destruct (evaluate_calls calls _) as [rs metric'] eqn:Hrest;
    cbn [fst] in IH |- *; rewrite imap_cons, He; f_equal;
    try (cbn [take map concat]; rewrite take_0; simpl;
         rewrite app_nil_r; reflexivity);
    (rewrite IH; apply imap_ext; intros k c' _; unfold compose;
     cbn [take map concat]; rewrite app_assoc; reflexivity).
Qed.

(** C10: the metric object is created once and never reset.  For every
    sequence of calls of [evaluate_accuracy], the k-th call either raises
    (when one of its batches does) or returns the accuracy over all the
    batches processed in calls 1 to k together.  The result is not a
    function of the arguments of the call: with the same arguments, a call
    returns 0 on a fresh metric and 1/2 after another call. *)
Theorem evaluate_accuracy_accumulates :
  (forall calls,
     (evaluate_calls calls Accuracy.new).1 =
     imap (fun k c =>
             match error_of c with
             | Some e => Err e
             | None =>
                 Ok (accuracy_over
                       (concat (map pairs_of (take (S k) calls))))
             end) calls) /\
  (let net := CenteredLayer_new "centeredlayer0_" in
   let d1 := [one_hot_batch 3 3] in
   let d2 := [one_hot_batch 5 7] in
   (evaluate_accuracy [] d2 net Accuracy.new).1
   = Ok (Some (Qc_of_nat 0 / Qc_of_nat 1)%Qc) /\
   (evaluate_calls [mkCall [] d1 net; mkCall [] d2 net] Accuracy.new).1
   = [Ok (Some (Qc_of_nat 1 / Qc_of_nat 1)%Qc);
      Ok (Some (Qc_of_nat 1 / Qc_of_nat 2)%Qc)]).
Proof.
  split.
  - intros calls. apply (evaluate_calls_accumulate calls []).
  - vm_compute. split; reflexivity.
Qed.

(** * Further properties of the notebook code *)

(** ** [transform] *)





(** ** [relu] *)

Lemma Qc_max_zero_nonneg (v : Qc) : (0 <= v)%Qc -> Qc_max v 0%Qc = v.
Proof.
  intros Hv. unfold Qc_max. destruct (decide (v <= 0)%Qc) as [Hle|]; [|done].
  apply Qcle_antisym; assumption.
Qed.

(** X2: [relu] keeps the context and the shape, leaves an array without
    negative entries as it is, and applying it a second time changes
    nothing. *)
Theorem relu_idempotent (X : NDArray) :
  nd.context (relu X) = nd.context X /\ nd.shape (relu X) = nd.shape X /\
  (Forall (fun v => 0 <= v)%Qc (nd.data X) -> relu X = X) /\
  relu (relu X) = relu X.
Proof.
  assert (Hfix : forall Y, Forall (fun v => 0 <= v)%Qc (nd.data Y) ->
                           relu Y = Y).
  { intros [c s d] Hpos. unfold relu, nd.maximum. simpl in *. f_equal.
    induction Hpos as [|v d Hv _ IH]; simpl; [reflexivity|].
    rewrite Qc_max_zero_nonneg by exact Hv. f_equal. exact IH. }
  split; [reflexivity|]. split; [reflexivity|]. split; [apply Hfix|].
  apply Hfix. apply relu_nonneg.
Qed.

Lemma relu_idempotent_witness :
  let X := nd.array [Qc_of_nat 0; Qc_of_nat 2] in relu X = X.
Proof.
  intros X. destruct (relu_idempotent X) as (_ & _ & Hfix & _).
  apply Hfix.
  repeat (apply Forall_cons; split;
          [rewrite <- Z2Qc_inj_0;
           apply (proj1 (Z2Qc_inj_le 0 (Z.of_nat _))); lia|]).
  apply Forall_nil. exact I.
Defined.

(** ** More on [MyDense] *)

Lemma row_nth (x : NDArray) (k r : nat) :
  r * k + k <= length (nd.data x) ->
  row x k r = map (fun i => nth (r * k + i) (nd.data x) 0%Qc) (seq 0 k).
Proof. intros H. unfold row. apply take_drop_nth. exact H. Qed.

Lemma map_seq_inv {A} (f g : nat -> A) (k i : nat) :
  map f (seq 0 k) = map g (seq 0 k) -> i < k -> f i = g i.
Proof.
  intros H Hi. apply (f_equal (fun l => l !! i)) in H.
  rewrite !list_lookup_fmap, lookup_seq_lt in H by exact Hi.
  simpl in H. congruence.
Qed.

(** X5: [MyDense.forward] treats the rows of a batch independently: when
    row [r] of an input [x] equals row [r'] of an input [x'] (of the same
    context), row [r] of the output for [x] equals row [r'] of the output
    for [x'].  In particular equal rows of one batch give equal rows of the
    output, as the output for [nd.ones(shape=(2,10))] shows. *)
Theorem MyDense_forward_rowwise (st : store) (self : MyDense.t)
    (x x' w b : NDArray) (lead lead' : list nat) (in_units r r' : nat) :
  data_at st (MyDense.weight self) (nd.context x) = Ok w ->
  data_at st (MyDense.bias self) (nd.context x) = Ok b ->
  nd.context x' = nd.context x ->
  nd.shape w = [in_units; MyDense.units self] ->
  nd.shape b = [MyDense.units self] ->
  length (nd.data b) = MyDense.units self ->
  nd.shape x = lead ++ [in_units] ->
  length (nd.data x) = size lead * in_units ->
  nd.shape x' = lead' ++ [in_units] ->
  length (nd.data x') = size lead' * in_units ->
  r < size lead -> r' < size lead' ->
  row x in_units r = row x' in_units r' ->
  exists y y', MyDense.forward st self x = Ok y /\
    MyDense.forward st self x' = Ok y' /\
    row y (MyDense.units self) r = row y' (MyDense.units self) r'.
Proof.
  intros Hw Hb Hc Hsw Hsb Hlb Hsx Hlx Hsx' Hlx' Hr Hr' Hrow.
  destruct (MyDense_forward_affine st self x w b lead in_units
              Hw Hb Hsw Hsb Hlb Hsx Hlx) as (y & Hy & _ & _ & Hly & _ & Hval).
  rewrite <- Hc in Hw, Hb.
  destruct (MyDense_forward_affine st self x' w b lead' in_units
              Hw Hb Hsw Hsb Hlb Hsx' Hlx')
    as (y' & Hy' & _ & _ & Hly' & _ & Hval').
  exists y, y'. split; [exact Hy|]. split; [exact Hy'|].
  rewrite !row_nth by nia. apply map_ext_in. intros j Hj.
  apply in_seq in Hj.
  rewrite !nth_lookup, (Hval r j), (Hval' r' j) by lia. simpl.
  f_equal. unfold affine. do 2 f_equal. apply map_ext_in. intros i Hi.
  apply in_seq in Hi. f_equal.
  rewrite !row_nth in Hrow by nia.
  apply (map_seq_inv _ _ in_units i Hrow). lia.
Qed.

Lemma MyDense_forward_rowwise_witness :
  exists st y,
    dense_example (fun _ => ramp) ramp = (Ok dense, st) /\
    MyDense.forward st dense (nd.ones ctx [2; 10]) = Ok y /\
    row y 20 0 = row y 20 1.
Proof.
  destruct (dense_example_ready (fun _ => ramp) ramp)
    as (st & Hrun & Hrw & Hrb).
  apply ready_data in Hrw as (w & Hw & Hsw & _).
  apply ready_data in Hrb as (b & Hb & Hsb & Hlb).
  destruct (MyDense_forward_rowwise st dense (nd.ones ctx [2; 10])
              (nd.ones ctx [2; 10]) w b [2] [2] 10 0 1 Hw Hb eq_refl Hsw Hsb
              Hlb eq_refl eq_refl eq_refl eq_refl)
    as (y & y' & Hy & Hy' & Hrow); [simpl; lia | simpl; lia | reflexivity |].
  exists st, y. split; [exact Hrun|]. split; [exact Hy|].
  assert (y' = y) as -> by congruence. exact Hrow.
Defined.

(** X6: [MyDense.__init__] always succeeds.  It leaves the handles that
    exist untouched and registers two new ones: [self.weight], found in
    [self.params] under prefix + "weight" with declared shape
    (in_units, units), and [self.bias], found under prefix + "bias" with
    declared shape (units,).  Neither owns storage, so until the block is
    initialized every [forward] call fails with [UninitializedError]. *)
Theorem MyDense_init_registers (Xavier : Qc -> Initializer) (prefix : string)
    (units in_units : nat) (st0 : store) :
  exists self st,
    MyDense.__init__ Xavier prefix units in_units st0 = (Ok self, st) /\
    (forall l p, st0 !! l = Some p -> st !! l = Some p) /\
    length st = length st0 + 2 /\
    ParameterDict.keys (MyDense.params self)
      = [prefix +:+ "weight"; prefix +:+ "bias"] /\
    ParameterDict.getitem (MyDense.params self) (prefix +:+ "weight")
      = Ok (MyDense.weight self) /\
    ParameterDict.getitem (MyDense.params self) (prefix +:+ "bias")
      = Ok (MyDense.bias self) /\
    unallocated st (MyDense.weight self) [in_units; units] /\
    unallocated st (MyDense.bias self) [units] /\
    (forall x, MyDense.forward st self x = Err UninitializedError).
Proof.
  eexists _, _. split; [apply MyDense_init_run|].
  cbn [MyDense.params MyDense.weight MyDense.bias].
  assert (Hw : unallocated
    (st0 ++ [Param.construct (prefix +:+ "weight") (Some [in_units; units])
               true (Some (Xavier (Q2Qc (224 # 100))));
             Param.construct (prefix +:+ "bias") (Some [units]) true None])
    (length st0) [in_units; units]).
  { eexists. split; [apply list_lookup_middle; reflexivity|].
    split; reflexivity. }
  split; [intros l p H; apply lookup_app_l_Some; exact H|].
  split; [rewrite length_app; reflexivity|].
  split; [reflexivity|]. split.
  { unfold ParameterDict.getitem, ParameterDict.items. simpl.
    rewrite decide_True by reflexivity. reflexivity. }
  split.
  { unfold ParameterDict.getitem, ParameterDict.items. simpl.
    rewrite decide_False, decide_True; [reflexivity.. |].
    intros H. apply append_inj_r in H. discriminate. }
  split; [exact Hw|]. split.
  - eexists. split.
    + rewrite lookup_app_r by lia.
      replace (S (length st0) - length st0) with 1 by lia. reflexivity.
    + split; reflexivity.
  - intros x. eapply (MyDense_forward_unallocated _ (MyDense.mk _ _ _ _ _)).
    exact Hw.
Qed.

(** ** More on [evaluate_accuracy] *)

Lemma evaluate_loop_app (st : store) (d1 d2 : list (NDArray * NDArray))
    (net : Block) (metric : Accuracy.t) :
  evaluate_loop st (d1 ++ d2) net metric =
  match evaluate_loop st d1 net metric with
  | (Ok _, metric') => evaluate_loop st d2 net metric'
  | (Err e, metric') => (Err e, metric')
  end.
Proof.
  revert metric. induction d1 as [|[data label] d1 IH]; intros metric.
  - reflexivity.
  - cbn [app evaluate_loop].
    destruct (data0 ← nd.reshape_rows (nd.as_in_context data ctx) 784;
              forward st net data0) as [output|e]; [apply IH | reflexivity].
Qed.

(** X9: [evaluate_accuracy] on two iterators one after the other in a
    single call is the call on the first followed by the call on the second,
    whose value it returns; if a batch raises, the call raises at once, the
    batches before it stay counted in the metric and the batches after it
    are not looked at.  A batch whose number of pixels is not a multiple of
    784 raises [ShapeMismatchError] in this way. *)
Theorem evaluate_accuracy_app (st : store) (d1 d2 : list (NDArray * NDArray))
    (net : Block) (metric : Accuracy.t) :
  evaluate_accuracy st (d1 ++ d2) net metric =
  match evaluate_accuracy st d1 net metric with
  | (Ok _, metric') => evaluate_accuracy st d2 net metric'
  | (Err e, metric') => (Err e, metric')
  end /\
  forall data label,
    length (nd.data data) mod 784 <> 0 ->
    evaluate_accuracy st (d1 ++ (data, label) :: d2) net metric =
    match evaluate_accuracy st d1 net metric with
    | (Ok _, metric') => (Err ShapeMismatchError, metric')
    | (Err e, metric') => (Err e, metric')
    end.
Proof.
  split.
  - unfold evaluate_accuracy. rewrite evaluate_loop_app.
    destruct (evaluate_loop st d1 net metric) as [[[]|e] metric'];
      reflexivity.
  - intros data label Hmod. unfold evaluate_accuracy.
    rewrite evaluate_loop_app.
    destruct (evaluate_loop st d1 net metric) as [[[]|e] metric'];
      [|reflexivity].
    cbn [evaluate_loop]. unfold nd.reshape_rows. cbn [nd.as_in_context nd.data].
    rewrite decide_False by (intros [_ H]; contradiction). reflexivity.
Qed.

Lemma evaluate_accuracy_app_witness :
  (evaluate_accuracy [] ([one_hot_batch 3 3]
                         ++ (nd.array [Qc_of_nat 1], nd.array [Qc_of_nat 1])
                            :: [one_hot_batch 5 5])
     (CenteredLayer_new "centeredlayer0_") Accuracy.new)
  = (Err ShapeMismatchError, Accuracy.mk 1 1).
Proof.
  destruct (evaluate_accuracy_app [] [one_hot_batch 3 3] [one_hot_batch 5 5]
              (CenteredLayer_new "centeredlayer0_") Accuracy.new)
    as [_ H].
  rewrite (H (nd.array [Qc_of_nat 1]) (nd.array [Qc_of_nat 1]))
    by (simpl; lia).
  vm_compute. reflexivity.
Defined.

Lemma evaluate_loop_ok (st : store) (d : list (NDArray * NDArray))
    (net : Block) (metric : Accuracy.t) :
  Forall (fun batch => exists output,
            batch_output st net batch.1 = Ok output) d ->
  evaluate_loop st d net metric =
  (Ok tt,
   Accuracy.mk
     (Accuracy.sum_metric metric + sum_list_with (batch_hits st net) d)
     (Accuracy.num_inst metric + sum_list_with batch_inst d)).
Proof.
  intros Hok. revert metric.
  induction Hok as [|[data label] d [output Hout] _ IH]; intros metric.
  - simpl. rewrite !Nat.add_0_r. destruct metric. reflexivity.
  - assert (Hh : batch_hits st net (data, label)
                 = Accuracy.hits (nd.as_in_context label ctx) output).
    { unfold batch_hits. rewrite Hout. reflexivity. }
    cbn [evaluate_loop sum_list_with]. rewrite Hh.
    change (batch_inst (data, label)) with (length (nd.data label)).
    cbn [fst] in Hout. unfold batch_output in Hout. rewrite Hout, IH.
    cbn [Accuracy.update Accuracy.sum_metric Accuracy.num_inst nd.data
         nd.as_in_context].
    f_equal. f_equal; lia.
Qed.

(** X10: the value [evaluate_accuracy] returns, and the state it leaves the
    metric in, do not depend on the order of the batches (the training data
    come shuffled), as long as no batch raises. *)
Theorem evaluate_accuracy_order (st : store)
    (d d' : list (NDArray * NDArray)) (net : Block) (metric : Accuracy.t) :
  d ≡ₚ d' ->
  Forall (fun batch => exists output,
            batch_output st net batch.1 = Ok output) d ->
  evaluate_accuracy st d net metric = evaluate_accuracy st d' net metric.
Proof.
  intros Hperm Hok. unfold evaluate_accuracy.
  rewrite (evaluate_loop_ok st d net metric Hok).
  rewrite (evaluate_loop_ok st d' net metric)
    by (rewrite <- Hperm; exact Hok).
  rewrite Hperm. reflexivity.
Qed.

Lemma evaluate_accuracy_order_witness :
  let net := CenteredLayer_new "centeredlayer0_" in
  evaluate_accuracy [] [one_hot_batch 3 3; one_hot_batch 5 7] net Accuracy.new
  = evaluate_accuracy [] [one_hot_batch 5 7; one_hot_batch 3 3] net
      Accuracy.new.
Proof.
  intros net. apply evaluate_accuracy_order.
  - apply perm_swap.
  - repeat (apply Forall_cons; split;
            [destruct (batch_output [] net _) as [o|e] eqn:E;
             [exists o; reflexivity | vm_compute in E; discriminate]|]).
    apply Forall_nil. exact I.
Defined.

(** ** More on the moving loss *)

(** X12: the loop over the epochs never raises at the moving loss and
    reports one value per epoch: for an epoch with batches, the moving
    average of its batches seeded by the first; for an epoch without
    batches, the value left by the epoch before it, and [0.] if it is the
    first epoch. *)
Theorem training_loop_reports (epochs : list (list NDArray)) :
  exists reported,
    training_loop epochs = Ok reported /\
    length reported = length epochs /\
    forall e batches,
      epochs !! e = Some batches ->
      reported !! e =
      Some (match batches, e with
            | _ :: _, _ => epoch_loss batches
            | [], 0 => 0%Qc
            | [], S e' => default 0%Qc (reported !! e')
            end).
Proof.
  unfold training_loop. generalize 0%Qc as m.
  induction epochs as [|batches epochs IH]; intros m.
  - exists []. split; [reflexivity|]. split; [reflexivity|].
    intros e batches H. rewrite lookup_nil in H. discriminate.
  - cbn [epoch_loop].
    assert (exists m', batch_loop 0 m batches = Ok m' /\
                   m' = match batches with
                        | [] => m
                        | _ :: _ => epoch_loss batches
                        end) as (m' & Hrun & Hm').
    { destruct batches as [|first later].
      - exists m. split; reflexivity.
      - eexists. split; [apply batch_loop_epoch | reflexivity]. }
    rewrite Hrun. cbn [mbind result_bind].
    destruct (IH m') as (reported & Hrest & Hlen & Hrep).
    rewrite Hrest. cbn [mbind result_bind].
    exists (m' :: reported). split; [reflexivity|].
    split; [simpl; congruence|].
    intros e bs He. destruct e as [|e]; simpl in He.
    + injection He as <-. simpl. rewrite Hm'. destruct batches; reflexivity.
    + rewrite lookup_cons. rewrite (Hrep e bs He).
      destruct bs as [|b bs]; [|reflexivity].
      destruct e as [|e]; [reflexivity|]. simpl.
      destruct (reported !! e) as [v|] eqn:Hv; [reflexivity|].
      apply lookup_ge_None in Hv. apply lookup_lt_Some in He. lia.
Qed.

(** ** Names of the parameters of several layers *)

Lemma string_length_append (a b : string) :
  String.length (a +:+ b) = String.length a + String.length b.
Proof. induction a as [|c a IH]; simpl; [reflexivity | rewrite IH; reflexivity]. Qed.

Lemma append_inj_l (p1 p2 s : string) : p1 +:+ s = p2 +:+ s -> p1 = p2.
Proof.
  revert p2. induction p1 as [|c p1 IH]; intros [|c2 p2] H.
  - reflexivity.
  - apply (f_equal String.length) in H.
    rewrite !string_length_append in H. simpl in H. lia.
  - apply (f_equal String.length) in H.
    rewrite !string_length_append in H. simpl in H. lia.
  - simpl in H. injection H as -> H. f_equal. apply IH. exact H.
Qed.

Lemma weight_bias_distinct (p1 p2 : string) :
  p1 +:+ "weight" <> p2 +:+ "bias".
Proof.
  revert p2. induction p1 as [|c p1 IH]; intros p2 H.
  - destruct p2 as [|a [|b [|c p2]]]; simpl in H; try discriminate.
    injection H as _ _ _ H. apply (f_equal String.length) in H.
    rewrite string_length_append in H. simpl in H. lia.
  - destruct p2 as [|c2 p2].
    + apply (f_equal String.length) in H.
      rewrite !string_length_append in H. simpl in H. lia.
    + simpl in H. injection H as _ H. apply (IH p2 H).
Qed.

(** X13: two [MyDense] layers added to a [Sequential] collide exactly when
    they were constructed with the same prefix: with different prefixes
    (what the name scope of the notebook provides) [collect_params] returns
    the four handles, weight and bias of the first layer and then of the
    second; with the same prefix it fails with [NameCollisionError]. *)
Theorem MyDense_layers_names (Xavier : Qc -> Initializer)
    (prefix p1 p2 : string) (u1 i1 u2 i2 : nat) (st0 : store) :
  exists d1 d2 st,
    (d1 ← MyDense.__init__ Xavier p1 u1 i1;
     d2 ← MyDense.__init__ Xavier p2 u2 i2;
     mret (d1, d2)) st0 = (Ok (d1, d2), st) /\
    let net := add (add (Sequential_new prefix) (MyDense_ d1)) (MyDense_ d2) in
    (p1 = p2 -> collect_params net = Err NameCollisionError) /\
    (p1 <> p2 ->
     collect_params net =
     Ok [(p1 +:+ "weight", MyDense.weight d1);
         (p1 +:+ "bias", MyDense.bias d1);
         (p2 +:+ "weight", MyDense.weight d2);
         (p2 +:+ "bias", MyDense.bias d2)]).
Proof.
  eexists _, _, _. split.
  { rewrite (bind_run _ _ _ _ _ (MyDense_init_run Xavier p1 u1 i1 st0)).
    rewrite (bind_run _ _ _ _ _ (MyDense_init_run Xavier p2 u2 i2 _)).
    reflexivity. }
  cbv zeta. cbn [add Sequential_new collect_params foldl app params
                 MyDense.params MyDense.weight MyDense.bias].
  unfold ParameterDict.items. cbn [ParameterDict._params ParameterDict.new
    ParameterDict.prefix map fst snd mbind result_bind].
  set (n := length st0).
  set (m := length (st0 ++ _)).
  assert (Hfirst : ParameterDict.merge []
            [(p1 +:+ "weight", n); (p1 +:+ "bias", S n)]
          = Ok [(p1 +:+ "weight", n); (p1 +:+ "bias", S n)]).
  { apply (merge_disjoint []).
    - apply NoDup_cons. split; [|apply NoDup_singleton].
      intros Hin. apply list_elem_of_singleton, append_inj_r in Hin.
      discriminate.
    - intros k _. apply not_elem_of_nil. }
  rewrite Hfirst. cbn [mbind result_bind]. split.
  - intros <-. apply (merge_collision _ _ (p1 +:+ "weight")); simpl; left.
  - intros Hne. rewrite merge_disjoint; [reflexivity | |].
    + apply NoDup_cons. split; [|apply NoDup_singleton].
      intros Hin. apply list_elem_of_singleton, append_inj_r in Hin.
      discriminate.
    + intros k Hk2 Hk1. simpl in Hk1, Hk2.
      apply elem_of_cons in Hk2 as [->|Hk2];
        [|apply list_elem_of_singleton in Hk2 as ->];
        (apply elem_of_cons in Hk1 as [Hk1|Hk1];
         [|apply list_elem_of_singleton in Hk1]);
        first [ exact (weight_bias_distinct _ _ Hk1)
              | symmetry in Hk1; exact (weight_bias_distinct _ _ Hk1)
              | apply append_inj_l in Hk1; congruence ].
Qed.

Lemma MyDense_layers_names_witness :
  collect_params (add (add (Sequential_new "sequential1_") (MyDense_ layer0))
                      (MyDense_ layer1))
  = Ok [("sequential1_mydense0_weight", 0); ("sequential1_mydense0_bias", 1);
        ("sequential1_mydense1_weight", 2); ("sequential1_mydense1_bias", 3)].
Proof.
  destruct (MyDense_layers_names (fun _ => ramp) "sequential1_"
              "sequential1_mydense0_" "sequential1_mydense1_" 128 784 64 128
              []) as (d1 & d2 & st & Hrun & _ & Hok).
  injection Hrun as <- <- _. apply Hok. discriminate.
Defined.
